(** * Creational patterns: builder, factory and prototype

    A shallow embedding of the TypeScript sources of the builder, the
    factory and the prototype pattern in [creational-design-pattern], and
    the properties their specification states.

    Objects live in a store indexed by locations, because the builder
    classes hand out references ([return this], [return result]) and the
    properties are about which objects are shared.  JavaScript exceptions are
    an explicit completion. *)

From Stdlib Require Import String Ascii ZArith Bool.
From stdpp Require Import gmap strings list fin_maps.

Local Open Scope string_scope.

(** ** Exceptions and completions *)

(** The two kinds of exception the sources can produce: the runtime's
    [TypeError] for a property read on [undefined] or a call of something
    that is not a function (the argument is the property involved), and the
    plain [Error] objects of [throw new Error(message)]. *)
Inductive exn : Type :=
| TypeError (property : string)
| Error (message : string).

(** The [name] property of the exception object. *)
Definition exn_name (e : exn) : string :=
  match e with
  | TypeError _ => "TypeError"
  | Error _ => "Error"
  end.

(** The [message] of an [Error]; the text of a [TypeError] is chosen by
    the engine and is left out of the model. *)
Definition exn_message (e : exn) : option string :=
  match e with
  | TypeError _ => None
  | Error m => Some m
  end.

Inductive completion (A : Type) : Type :=
| Return (a : A)
| Throw (e : exn).
Arguments Return {A} a.
Arguments Throw {A} e.

(** ** Strings *)

(** A string is a sequence of code units below 256.  On that range
    [String.prototype.toLowerCase] maps A-Z and the Latin-1 capitals
    (0xC0-0xDE without the multiplication sign 0xD7) 32 places up and
    leaves every other unit alone. *)
Definition lowerUnit (c : ascii) : ascii :=
  let n := nat_of_ascii c in
  if (Nat.leb 65 n && Nat.leb n 90)
     || (Nat.leb 192 n && Nat.leb n 222 && negb (Nat.eqb n 215))
  then ascii_of_nat (n + 32)
  else c.

Fixpoint toLowerCase (s : string) : string :=
  match s with
  | EmptyString => EmptyString
  | String c r => String (lowerUnit c) (toLowerCase r)
  end.

(** [s.includes(t)]: [t] occurs in [s] as a substring. *)
Fixpoint includes (t s : string) : bool :=
  String.prefix t s ||
  match s with
  | EmptyString => false
  | String _ r => includes t r
  end.

(** ** The factory pattern *)

Module Factory.
Section WithNumber.

(** [productionYear] is a JavaScript [number]; the factory only stores
    it, so the model is generic in the type of numbers. *)
Context {number : Type}.

(** The concrete subclass of the abstract class [Car]. *)
Inductive CarClass : Type := Sedan | SUV | Hatchback.

Record Car : Type := mkCar {
  carClass : CarClass;
  model : string;
  productionYear : number
}.

(** [new Sedan(model, productionYear)] and its siblings: each
    constructor only calls [super], which stores the two fields. *)
Definition new_Sedan (m : string) (y : number) : Car := mkCar Sedan m y.
Definition new_SUV (m : string) (y : number) : Car := mkCar SUV m y.
Definition new_Hatchback (m : string) (y : number) : Car := mkCar Hatchback m y.

(** [CarFactory.createCar]: a [switch] on [type.toLowerCase()]. *)
Definition createCar (type : string) (m : string) (y : number)
  : completion Car :=
  let t := toLowerCase type in
  if String.eqb t "sedan" then Return (new_Sedan m y)
  else if String.eqb t "suv" then Return (new_SUV m y)
  else if String.eqb t "hatchback" then Return (new_Hatchback m y)
  else Throw (Error "Invalid car type").

End WithNumber.
Arguments Car : clear implicits.
End Factory.

(** ** The object store *)

(** References are locations of a store; [new] takes a location that is
    not in use. *)
Definition loc : Type := positive.

(** A value that holds an object reference or is still [undefined] (a
    field declared with [!] and not yet assigned). *)
Inductive value : Type :=
| VUndefined
| VRef (l : loc).

Section Store.

(** [O] is the type of the objects in the store. *)
Context {O : Type}.

(** A computation runs on a store and completes normally or abruptly,
    leaving a store behind.  [None] stands for a store that no run of
    the program can produce: a dangling reference, or an object that
    does not have the class its static type promises. *)
Definition M (A : Type) : Type :=
  gmap loc O -> option (completion A * gmap loc O).

Definition ret {A} (a : A) : M A := fun h => Some (Return a, h).

Definition throw {A} (e : exn) : M A := fun h => Some (Throw e, h).

Definition stuck {A} : M A := fun _ => None.

Definition bind {A B} (m : M A) (k : A -> M B) : M B :=
  fun h =>
    match m h with
    | Some (Return a, h') => k a h'
    | Some (Throw e, h') => Some (Throw e, h')
    | None => None
    end.

(** [new C(...)]: the object is stored at a location not in use. *)
Definition alloc (o : O) : M loc :=
  fun h => let l := fresh (dom h) in Some (Return l, <[l:=o]> h).

Definition read (l : loc) : M O :=
  fun h => match h !! l with
           | Some o => Some (Return o, h)
           | None => None
           end.

Definition write (l : loc) (o : O) : M unit :=
  fun h => Some (Return tt, <[l:=o]> h).

End Store.
Arguments M : clear implicits.

Notation "'let*' x ':=' m 'in' k" := (bind m (fun x => k))
  (at level 10, x pattern, m at level 100, k at level 200).

(** ** The builder pattern *)

Module Builder.

(** The four fields of the interface [ICustomer]; the private fields of
    [CustomerBuilder] have the same names and types. *)
Record ICustomer : Type := mkCustomer {
  firstName : string;
  lastName : string;
  phoneNumber : string;
  email : string
}.

(** The instances of the classes of the file.  The array [parts] of a
    [Product] is private and never handed out, so it is kept inside the
    object. *)
Inductive object : Type :=
| ProductObj (parts : list string)
| ConcreteBuilderObj (product : value)
| CustomerObj (c : ICustomer)
| CustomerBuilderObj (s : ICustomer)
| CustomerDirectorObj (builder : value).

Definition isProduct (o : object) : bool :=
  match o with ProductObj _ => true | _ => false end.

Definition isCustomerBuilder (o : object) : bool :=
  match o with CustomerBuilderObj _ => true | _ => false end.

(** The call [target.name(...)] of a method that only the classes
    accepted by [implements] have.  Reading the property of
    [undefined] throws a [TypeError]; on an object of another class the
    property is [undefined] and calling it throws a [TypeError];
    otherwise the method body runs with [this] bound to the object. *)
Definition methodCall {A} (implements : object -> bool) (name : string)
    (target : value) (body : loc -> M object A) : M object A :=
  match target with
  | VUndefined => throw (TypeError name)
  | VRef l =>
      let* o := read l in
      if implements o then body l else throw (TypeError name)
  end.

(** *** Product and ConcreteBuilder *)

Definition new_Product : M object loc := alloc (ProductObj []).

(** [Product.add]: [this.parts.push(part)]. *)
Definition add (this : loc) (part : string) : M object unit :=
  let* o := read this in
  match o with
  | ProductObj parts => write this (ProductObj (parts ++ [part]))
  | _ => stuck
  end.

(** The field [this.product] of a [ConcreteBuilder]. *)
Definition get_product (this : loc) : M object value :=
  let* o := read this in
  match o with
  | ConcreteBuilderObj p => ret p
  | _ => stuck
  end.

(** The assignment [this.product = v]. *)
Definition set_product (this : loc) (v : value) : M object unit :=
  let* o := read this in
  match o with
  | ConcreteBuilderObj _ => write this (ConcreteBuilderObj v)
  | _ => stuck
  end.

(** [ConcreteBuilder.reset]: [this.product = new Product()]. *)
Definition reset (this : loc) : M object unit :=
  let* p := new_Product in
  set_product this (VRef p).

(** [new ConcreteBuilder()]: the constructor calls [this.reset()]. *)
Definition new_ConcreteBuilder : M object loc :=
  let* this := alloc (ConcreteBuilderObj VUndefined) in
  let* _ := reset this in
  ret this.

(** [this.product.add(part)], the body of the three part setters. *)
Definition setPart (part : string) (this : loc) : M object unit :=
  let* p := get_product this in
  methodCall isProduct "add" p (fun l => add l part).

Definition setPartA : loc -> M object unit := setPart "PartA".
Definition setPartB : loc -> M object unit := setPart "PartB".
Definition setPartC : loc -> M object unit := setPart "PartC".

(** [ConcreteBuilder.getProduct]. *)
Definition getProduct (this : loc) : M object value :=
  let* result := get_product this in
  let* _ := reset this in
  ret result.

(** What a client can call on a [ConcreteBuilder], and a sequence of
    such calls on the builder [this]; the run returns what the
    [getProduct] calls returned, in order. *)
Inductive partCall : Type := CallPartA | CallPartB | CallPartC.

Inductive builderCall : Type :=
| CallPart (c : partCall)
| CallReset
| CallGetProduct.

Definition partName (c : partCall) : string :=
  match c with
  | CallPartA => "PartA"
  | CallPartB => "PartB"
  | CallPartC => "PartC"
  end.

Definition callPart (c : partCall) : loc -> M object unit :=
  match c with
  | CallPartA => setPartA
  | CallPartB => setPartB
  | CallPartC => setPartC
  end.

Fixpoint runCalls (cs : list builderCall) (this : loc)
  : M object (list value) :=
  match cs with
  | [] => ret []
  | CallPart c :: r =>
      let* _ := callPart c this in
      runCalls r this
  | CallReset :: r =>
      let* _ := reset this in
      runCalls r this
  | CallGetProduct :: r =>
      let* p := getProduct this in
      let* ps := runCalls r this in
      ret (p :: ps)
  end.

(** The names of the parts set since the last [reset] or [getProduct]
    of a run ([acc] are those set before the run). *)
Definition pendingStep (acc : list string) (c : builderCall)
  : list string :=
  match c with
  | CallPart c => acc ++ [partName c]
  | CallReset | CallGetProduct => []
  end.

Definition pending (acc : list string) (cs : list builderCall)
  : list string :=
  foldl pendingStep acc cs.

(** The sequence is empty or ends with a [reset] or a [getProduct]. *)
Definition resetsLast (cs : list builderCall) : bool :=
  match last cs with
  | Some (CallPart _) => false
  | _ => true
  end.

(** *** Customer, CustomerBuilder and CustomerDirector *)

(** [new Customer(firstName, lastName, phoneNumber, email)]. *)
Definition new_Customer (f l p e : string) : M object loc :=
  alloc (CustomerObj (mkCustomer f l p e)).

(** [new CustomerBuilder()]: the four field initialisers. *)
Definition new_CustomerBuilder : M object loc :=
  alloc (CustomerBuilderObj (mkCustomer "" "" "" "")).

(** The private fields of the builder [this]. *)
Definition get_fields (this : loc) : M object ICustomer :=
  let* o := read this in
  match o with
  | CustomerBuilderObj s => ret s
  | _ => stuck
  end.

(** The assignments [this.firstName = v] and so on. *)
Definition assign (upd : ICustomer -> ICustomer) (this : loc)
  : M object unit :=
  let* s := get_fields this in
  write this (CustomerBuilderObj (upd s)).

Definition with_firstName (v : string) (s : ICustomer) : ICustomer :=
  mkCustomer v (lastName s) (phoneNumber s) (email s).
Definition with_lastName (v : string) (s : ICustomer) : ICustomer :=
  mkCustomer (firstName s) v (phoneNumber s) (email s).
Definition with_phoneNumber (v : string) (s : ICustomer) : ICustomer :=
  mkCustomer (firstName s) (lastName s) v (email s).
Definition with_email (v : string) (s : ICustomer) : ICustomer :=
  mkCustomer (firstName s) (lastName s) (phoneNumber s) v.

Definition setFirstName (this : loc) (v : string) : M object value :=
  let* _ := assign (with_firstName v) this in
  ret (VRef this).

Definition setLastName (this : loc) (v : string) : M object value :=
  let* _ := assign (with_lastName v) this in
  ret (VRef this).

Definition setPhoneNumber (this : loc) (v : string) : M object value :=
  let* _ := assign (with_phoneNumber v) this in
  ret (VRef this).

Definition setEmail (this : loc) (v : string) : M object value :=
  let* _ := assign (with_email v) this in
  ret (VRef this).

(** [CustomerBuilder.reset]: the four assignments of the empty
    string.  (The name [reset] is taken by [ConcreteBuilder.reset].) *)
Definition resetCustomer (this : loc) : M object unit :=
  let* _ := assign (with_firstName "") this in
  let* _ := assign (with_lastName "") this in
  let* _ := assign (with_phoneNumber "") this in
  assign (with_email "") this.

(** [CustomerBuilder.build]. *)
Definition build (this : loc) : M object value :=
  let* s := get_fields this in
  let* customer :=
    new_Customer (firstName s) (lastName s) (phoneNumber s) (email s) in
  let* _ := resetCustomer this in
  ret (VRef customer).

(** [new CustomerDirector()]: [builder] is declared with [!] and has
    no initialiser. *)
Definition new_CustomerDirector : M object loc :=
  alloc (CustomerDirectorObj VUndefined).

(** The field [this.builder] of a director. *)
Definition get_builder (this : loc) : M object value :=
  let* o := read this in
  match o with
  | CustomerDirectorObj b => ret b
  | _ => stuck
  end.

(** [CustomerDirector.setBuilder]: [this.builder = builder]. *)
Definition setBuilder (this : loc) (builder : value) : M object unit :=
  let* o := read this in
  match o with
  | CustomerDirectorObj _ => write this (CustomerDirectorObj builder)
  | _ => stuck
  end.

(** The calls through the interface [ICustomerBuilder], whose only
    implementation is [CustomerBuilder]. *)
Definition call_setFirstName (v : string) (target : value) :=
  methodCall isCustomerBuilder "setFirstName" target
    (fun l => setFirstName l v).
Definition call_setLastName (v : string) (target : value) :=
  methodCall isCustomerBuilder "setLastName" target
    (fun l => setLastName l v).
Definition call_setPhoneNumber (v : string) (target : value) :=
  methodCall isCustomerBuilder "setPhoneNumber" target
    (fun l => setPhoneNumber l v).
Definition call_setEmail (v : string) (target : value) :=
  methodCall isCustomerBuilder "setEmail" target
    (fun l => setEmail l v).
Definition call_build (target : value) :=
  methodCall isCustomerBuilder "build" target build.

Definition buildMinimalCustomer (this : loc) (f l e : string)
  : M object value :=
  let* b := get_builder this in
  let* b1 := call_setFirstName f b in
  let* b2 := call_setLastName l b1 in
  let* b3 := call_setEmail e b2 in
  call_build b3.

Definition buildFullCustomer (this : loc) (f l p e : string)
  : M object value :=
  let* b := get_builder this in
  let* b1 := call_setFirstName f b in
  let* b2 := call_setLastName l b1 in
  let* b3 := call_setPhoneNumber p b2 in
  let* b4 := call_setEmail e b3 in
  call_build b4.

(** The four setters, named by the field they assign; a setter call
    is a setter with its argument. *)
Inductive field : Type := FirstName | LastName | PhoneNumber | Email.

Definition setterCall : Type := field * string.

Definition callSetter (c : setterCall) (target : value) : M object value :=
  match c.1 with
  | FirstName => call_setFirstName c.2 target
  | LastName => call_setLastName c.2 target
  | PhoneNumber => call_setPhoneNumber c.2 target
  | Email => call_setEmail c.2 target
  end.

(** A chain of setter calls, each made on what the one before it
    returned. *)
Fixpoint chain (cs : list setterCall) (target : value) : M object value :=
  match cs with
  | [] => ret target
  | c :: r => let* t := callSetter c target in chain r t
  end.

(** The assignment a setter call performs, and the field it assigns. *)
Definition setterUpdate (c : setterCall) : ICustomer -> ICustomer :=
  match c.1 with
  | FirstName => with_firstName c.2
  | LastName => with_lastName c.2
  | PhoneNumber => with_phoneNumber c.2
  | Email => with_email c.2
  end.

Definition getField (f : field) (s : ICustomer) : string :=
  match f with
  | FirstName => firstName s
  | LastName => lastName s
  | PhoneNumber => phoneNumber s
  | Email => email s
  end.

(** The state of a builder whose fields were never set, or were
    reset. *)
Definition defaults : ICustomer := mkCustomer "" "" "" "".

(** The fields of a builder after a sequence of setter calls. *)
Definition applySetters (cs : list setterCall) (s : ICustomer)
  : ICustomer :=
  foldl (fun acc k => setterUpdate k acc) s cs.

(** No call of the sequence assigns the field [f]. *)
Definition unset (f : field) (cs : list setterCall) : Prop :=
  Forall (fun k => k.1 <> f) cs.

(** An operation a client can perform on a builder, and a sequence of
    them on the builder [b]; the run returns what the [build] calls
    returned, in order. *)
Inductive builderOp : Type :=
| OpSet (c : setterCall)
| OpBuild.

Fixpoint runOps (ops : list builderOp) (b : loc) : M object (list value) :=
  match ops with
  | [] => ret []
  | OpSet c :: r =>
      let* _ := callSetter c (VRef b) in
      runOps r b
  | OpBuild :: r =>
      let* c := call_build (VRef b) in
      let* cs := runOps r b in
      ret (c :: cs)
  end.

End Builder.

(** ** The prototype pattern *)

Module Prototype.
Section WithNumber.

(** [age] is a JavaScript [number] that the class only copies. *)
Context {number : Type}.

(** The interface [UserDetails]. *)
Record UserDetails : Type := mkUserDetails {
  name : string;
  age : number;
  email : string
}.

(** A [UserDetails] object, or an instance of [ConcretePrototype].
    [proto] is [None] for an instance made by [new], whose prototype is
    the class's own, and [Some l] for one made by [Object.create(l)];
    [userDetails] is the own property of that name, if there is one. *)
Inductive object : Type :=
| UserDetailsObj (d : UserDetails)
| PrototypeObj (proto : option loc) (userDetails : option loc).

(** [new ConcretePrototype(userDetails)]: the reference is stored as it
    is. *)
Definition new_ConcretePrototype (userDetails : loc) : M object loc :=
  alloc (PrototypeObj None (Some userDetails)).

(** The property read [l.userDetails]: the own property, else the one
    of the prototype, else [undefined].  A prototype chain has no
    cycle, so it is no longer than the store is large. *)
Fixpoint lookupUserDetails (fuel : nat) (h : gmap loc object) (l : loc)
  : option value :=
  match fuel with
  | 0 => None
  | S n =>
      match h !! l with
      | Some (PrototypeObj pr own) =>
          match own, pr with
          | Some u, _ => Some (VRef u)
          | None, Some p => lookupUserDetails n h p
          | None, None => Some VUndefined
          end
      | _ => None
      end
  end.

Definition get_userDetails (l : loc) : M object value :=
  fun h => match lookupUserDetails (size h) h l with
           | Some v => Some (Return v, h)
           | None => None
           end.

(** The assignment [l.userDetails = u], which makes an own property. *)
Definition set_userDetails (l : loc) (u : loc) : M object unit :=
  let* o := read l in
  match o with
  | PrototypeObj pr _ => write l (PrototypeObj pr (Some u))
  | _ => stuck
  end.

(** [Object.create(proto)]. *)
Definition Object_create (proto : loc) : M object loc :=
  let* o := read proto in
  match o with
  | PrototypeObj _ _ => alloc (PrototypeObj (Some proto) None)
  | _ => stuck
  end.

(** The object literal [{ ...v }] for [v] of type [UserDetails]: a new
    object with the three fields of [v].  (For [undefined] the literal
    is an object without fields, which is no [UserDetails]; the property
    read in [clone] yields [undefined] only when no object of the chain
    has the property, and every instance has it from its constructor or
    from [clone].) *)
Definition spread (v : value) : M object loc :=
  match v with
  | VUndefined => stuck
  | VRef u =>
      let* o := read u in
      match o with
      | UserDetailsObj d => alloc (UserDetailsObj d)
      | _ => stuck
      end
  end.

(** [ConcretePrototype.clone]. *)
Definition clone (this : loc) : M object value :=
  let* clone := Object_create this in
  let* v := get_userDetails this in
  let* copy := spread v in
  let* _ := set_userDetails clone copy in
  ret (VRef clone).

(** [ConcretePrototype.getUserDetails]. *)
Definition getUserDetails (this : loc) : M object value :=
  get_userDetails this.

(** An assignment to fields of the [UserDetails] object [u], such as
    [u.name = v]. *)
Definition assignDetails (upd : UserDetails -> UserDetails) (u : loc)
  : M object unit :=
  let* o := read u in
  match o with
  | UserDetailsObj d => write u (UserDetailsObj (upd d))
  | _ => stuck
  end.

Definition with_name (v : string) (d : UserDetails) : UserDetails :=
  mkUserDetails v (age d) (email d).
Definition with_age (v : number) (d : UserDetails) : UserDetails :=
  mkUserDetails (name d) v (email d).
Definition with_email (v : string) (d : UserDetails) : UserDetails :=
  mkUserDetails (name d) (age d) v.

End WithNumber.
Arguments UserDetails : clear implicits.
Arguments object : clear implicits.
End Prototype.

(** ** The payment processor factory *)

Module Payment.
Section WithNumber.

(** [amount] is a JavaScript [number] that the factory only stores. *)
Context {number : Type}.

(** The concrete subclass of the abstract class [PaymentProcessor]. *)
Inductive ProcessorClass : Type := PayPal | Stripe | BankTransfer.

Record PaymentProcessor : Type := mkProcessor {
  processorClass : ProcessorClass;
  amount : number
}.

(** The three constructors, each of which only calls [super]. *)
Definition new_PayPalProcessor (a : number) : PaymentProcessor :=
  mkProcessor PayPal a.
Definition new_StripeProcessor (a : number) : PaymentProcessor :=
  mkProcessor Stripe a.
Definition new_BankTransferProcessor (a : number) : PaymentProcessor :=
  mkProcessor BankTransfer a.

(** [PaymentProcessorFactory.createProcessor]: a [switch] on
    [type.toLowerCase()]. *)
Definition createProcessor (type : string) (a : number)
  : completion PaymentProcessor :=
  let t := toLowerCase type in
  if String.eqb t "paypal" then Return (new_PayPalProcessor a)
  else if String.eqb t "stripe" then Return (new_StripeProcessor a)
  else if String.eqb t "banktransfer" then Return (new_BankTransferProcessor a)
  else Throw (Error "Invalid payment processor type").

End WithNumber.
Arguments PaymentProcessor : clear implicits.
End Payment.

(** ** The director of the part-list builder *)

Module Director.
Import Builder.

Definition isConcreteBuilder (o : object) : bool :=
  match o with ConcreteBuilderObj _ => true | _ => false end.

(** An instance of [Director].  Its state is the one field [builder],
    declared with [!] and without initialiser; the instance is passed
    along as a value and [setBuilder] returns it with the field
    assigned. *)
Record Director : Type := mkDirector { builder : value }.

Definition new_Director : Director := mkDirector VUndefined.

Definition setBuilder (this : Director) (b : value) : Director :=
  mkDirector b.

(** The calls through the interface [Builder], whose only implementation
    is [ConcreteBuilder]. *)
Definition call_setPartA (target : value) : M object unit :=
  methodCall isConcreteBuilder "setPartA" target setPartA.
Definition call_setPartB (target : value) : M object unit :=
  methodCall isConcreteBuilder "setPartB" target setPartB.
Definition call_setPartC (target : value) : M object unit :=
  methodCall isConcreteBuilder "setPartC" target setPartC.

Definition buildMinimalViableProduct (this : Director) : M object unit :=
  call_setPartA (builder this).

Definition buildFullFeaturedProduct (this : Director) : M object unit :=
  let* _ := call_setPartA (builder this) in
  let* _ := call_setPartB (builder this) in
  call_setPartC (builder this).

(** The two recipes, the parts each one sets, and a sequence of recipes
    run on one director. *)
Inductive recipe : Type := MinimalViable | FullFeatured.

Definition recipeParts (r : recipe) : list string :=
  match r with
  | MinimalViable => ["PartA"]
  | FullFeatured => ["PartA"; "PartB"; "PartC"]
  end.

Definition runRecipe (r : recipe) (this : Director) : M object unit :=
  match r with
  | MinimalViable => buildMinimalViableProduct this
  | FullFeatured => buildFullFeaturedProduct this
  end.

Fixpoint runRecipes (rs : list recipe) (this : Director) : M object unit :=
  match rs with
  | [] => ret tt
  | r :: rest => let* _ := runRecipe r this in runRecipes rest this
  end.

End Director.

(** ** What runs of the builders return *)

Module Runs.
Import Builder.

(** The part lists of the products that the [getProduct] calls of a run
    return, when [acc] are the parts set before the run. *)
Fixpoint expectedProducts (acc : list string) (cs : list builderCall)
  : list (list string) :=
  match cs with
  | [] => []
  | CallPart c :: r => expectedProducts (acc ++ [partName c]) r
  | CallReset :: r => expectedProducts [] r
  | CallGetProduct :: r => acc :: expectedProducts [] r
  end.

(** The fields of the customers that the [build] calls of a run return,
    when [s] are the fields of the builder before the run. *)
Fixpoint expectedCustomers (s : ICustomer) (ops : list builderOp)
  : list ICustomer :=
  match ops with
  | [] => []
  | OpSet k :: r => expectedCustomers (setterUpdate k s) r
  | OpBuild :: r => s :: expectedCustomers defaults r
  end.

(** [v] is a reference to an object that is not in [h] and is [o] in
    [h']. *)
Definition newObject (h h' : gmap loc object) (v : value) (o : object)
  : Prop :=
  exists l, v = VRef l /\ h !! l = None /\ h' !! l = Some o.

End Runs.

(** ** The shapes of the prototype pattern *)

Module Shapes.
Section WithNumber.

(** The coordinates and sizes are JavaScript [number]s that the classes
    only copy. *)
Context {number : Type}.

(** The interface [ShapeProperties]. *)
Record ShapeProperties : Type := mkProperties {
  color : string;
  x : number;
  y : number
}.

(** A [ShapeProperties] object, or an instance of one of the two
    subclasses of [Shape] with its public field [properties]. *)
Inductive object : Type :=
| PropertiesObj (p : ShapeProperties)
| CircleObj (properties : loc) (radius : number)
| RectangleObj (properties : loc) (width height : number).

(** [new Circle(properties, radius)]: [super] stores the reference as it
    is, and the initialiser [0] of [radius] is overwritten before the
    constructor returns. *)
Definition new_Circle (properties : loc) (radius : number) : M object loc :=
  alloc (CircleObj properties radius).

(** [new Rectangle(properties, width, height)]. *)
Definition new_Rectangle (properties : loc) (width height : number)
  : M object loc :=
  alloc (RectangleObj properties width height).

(** The object literal [{ ...this.properties }]. *)
Definition spread (p : loc) : M object loc :=
  let* o := read p in
  match o with
  | PropertiesObj d => alloc (PropertiesObj d)
  | _ => stuck
  end.

(** [Circle.clone]: the arguments of [new] are evaluated first, left to
    right. *)
Definition Circle_clone (this : loc) : M object value :=
  let* o := read this in
  match o with
  | CircleObj p r =>
      let* copy := spread p in
      let* c := new_Circle copy r in
      ret (VRef c)
  | _ => stuck
  end.

(** [Rectangle.clone]. *)
Definition Rectangle_clone (this : loc) : M object value :=
  let* o := read this in
  match o with
  | RectangleObj p w ht =>
      let* copy := spread p in
      let* c := new_Rectangle copy w ht in
      ret (VRef c)
  | _ => stuck
  end.

(** The read [shape.properties] of the public field. *)
Definition get_properties (shape : loc) : M object value :=
  let* o := read shape in
  match o with
  | CircleObj p _ => ret (VRef p)
  | RectangleObj p _ _ => ret (VRef p)
  | PropertiesObj _ => stuck
  end.

(** An assignment to fields of the [ShapeProperties] object [p], such as
    [p.color = v]. *)
Definition assignProperties (upd : ShapeProperties -> ShapeProperties)
    (p : loc) : M object unit :=
  let* o := read p in
  match o with
  | PropertiesObj d => write p (PropertiesObj (upd d))
  | _ => stuck
  end.

Definition with_color (v : string) (d : ShapeProperties) : ShapeProperties :=
  mkProperties v (x d) (y d).

End WithNumber.
Arguments ShapeProperties : clear implicits.
Arguments object : clear implicits.
End Shapes.

(** ** The singleton pattern *)

Module Singleton.
Section WithNumber.

(** [_value] is a JavaScript [number] that the class only stores. *)
Context {number : Type}.

(** The class objects [Singleton] and [Logger] with their static fields
    (a static field without initialiser is [undefined]: [VUndefined] for
    [instance], [None] for [_value]), and the instances of [Singleton],
    [Logger] and [Application]. *)
Inductive object : Type :=
| SingletonClass (instance : value) (_value : option number)
| SingletonObj
| LoggerClass (instance : value)
| LoggerObj
| ApplicationObj (logger : value).

(** [!v] for [v] an object reference or [undefined]. *)
Definition falsy (v : value) : bool :=
  match v with
  | VUndefined => true
  | VRef _ => false
  end.

(** The static field [Singleton.instance], where [cls] is the class
    object. *)
Definition get_instance (cls : loc) : M object value :=
  let* o := read cls in
  match o with
  | SingletonClass i _ => ret i
  | _ => stuck
  end.

Definition set_instance (cls : loc) (i : value) : M object unit :=
  let* o := read cls in
  match o with
  | SingletonClass _ v => write cls (SingletonClass i v)
  | _ => stuck
  end.

(** [Singleton.getInstance]. *)
Definition getInstance (cls : loc) : M object value :=
  let* i := get_instance cls in
  let* _ := (if falsy i
             then let* new := alloc SingletonObj in
                  set_instance cls (VRef new)
             else ret tt) in
  get_instance cls.

(** The accessors [get value] and [set value] of an instance [this]:
    both go to the static field [Singleton._value]. *)
Definition get_value (cls : loc) (this : loc) : M object (option number) :=
  let* o := read cls in
  match o with
  | SingletonClass _ v => ret v
  | _ => stuck
  end.

Definition set_value (cls : loc) (this : loc) (val : number)
  : M object unit :=
  let* o := read cls in
  match o with
  | SingletonClass i _ => write cls (SingletonClass i (Some val))
  | _ => stuck
  end.

(** The static field [Logger.instance]. *)
Definition get_logger (cls : loc) : M object value :=
  let* o := read cls in
  match o with
  | LoggerClass i => ret i
  | _ => stuck
  end.

Definition set_logger (cls : loc) (i : value) : M object unit :=
  let* o := read cls in
  match o with
  | LoggerClass _ => write cls (LoggerClass i)
  | _ => stuck
  end.

(** [Logger.getInstance]. *)
Definition Logger_getInstance (cls : loc) : M object value :=
  let* i := get_logger cls in
  let* _ := (if falsy i
             then let* new := alloc LoggerObj in
                  set_logger cls (VRef new)
             else ret tt) in
  get_logger cls.

(** [new Application()]: the constructor assigns
    [this.logger = Logger.getInstance()]. *)
Definition new_Application (cls : loc) : M object loc :=
  let* this := alloc (ApplicationObj VUndefined) in
  let* l := Logger_getInstance cls in
  let* _ := write this (ApplicationObj l) in
  ret this.

End WithNumber.
Arguments object : clear implicits.
End Singleton.

(** * Properties *)

(** ** The factory *)

Section FactoryFacts.
Import Factory.
Context {number : Type}.
Implicit Types (m tag : string) (y : number).

Lemma toLowerCase_idem s : toLowerCase (toLowerCase s) = toLowerCase s.
Proof.
  induction s as [|c r IH]; simpl; [done|]. f_equal; [|done].
  destruct c as [[] [] [] [] [] [] [] []]; reflexivity.
Qed.

(** C5.  The tag is compared after lowering: a tag whose lowercase
    form is one of the three case labels yields a car of the class of
    that label with the model and the year passed in.  So
    [createCar("sedan", "Toyota Camry", y)] is a [Sedan] for that model
    and year, and its class differs from that of any car made for the
    tag ["suv"]. *)
Theorem createCar_case_insensitive tag m y :
  (toLowerCase tag = "sedan" -> createCar tag m y = Return (mkCar Sedan m y))
  /\ (toLowerCase tag = "suv" -> createCar tag m y = Return (mkCar SUV m y))
  /\ (toLowerCase tag = "hatchback"
      -> createCar tag m y = Return (mkCar Hatchback m y))
  /\ createCar "sedan" "Toyota Camry" y
      = Return (mkCar Sedan "Toyota Camry" y)
  /\ (forall m' (y' : number) c c',
        createCar "sedan" "Toyota Camry" y = Return c ->
        createCar "suv" m' y' = Return c' ->
        carClass c <> carClass c').
Proof.
  unfold createCar.
  repeat split; try (intros ->; reflexivity).
  simpl. intros m' y' c c' [= <-] [= <-]. discriminate.
Qed.

(** C4, as the code has it.  A tag whose lowercase form is none of the
    three case labels makes [createCar] throw the plain [Error] with
    the fixed message "Invalid car type"; no car is returned. *)
Theorem createCar_unknown_tag tag m y :
  toLowerCase tag <> "sedan" ->
  toLowerCase tag <> "suv" ->
  toLowerCase tag <> "hatchback" ->
  createCar tag m y = Throw (Error "Invalid car type").
Proof.
  intros H1 H2 H3. unfold createCar.
  apply String.eqb_neq in H1, H2, H3. by rewrite H1, H2, H3.
Qed.

End FactoryFacts.

Lemma createCar_case_insensitive_witness :
  toLowerCase "SeDaN" = "sedan"
  /\ Factory.createCar "SeDaN" "Toyota Camry" 2020%Z
     = Return (Factory.mkCar Factory.Sedan "Toyota Camry" 2020%Z).
Proof.
  split; [reflexivity|].
  apply (proj1 (createCar_case_insensitive "SeDaN" "Toyota Camry" 2020%Z)).
  reflexivity.
Defined.

Lemma createCar_unknown_tag_witness :
  Factory.createCar "minivan" "Odyssey" 2020%Z
  = Throw (Error "Invalid car type").
Proof.
  apply createCar_unknown_tag; vm_compute; discriminate.
Defined.

(** C4, as the specification has it, fails for the tag "minivan": the
    exception thrown is not an [UnknownVariantError] whose message
    contains the tag. *)
Lemma createCar_minivan_not_UnknownVariantError :
  ~ (exists e,
        Factory.createCar "minivan" "Odyssey" 2020%Z = Throw e
        /\ exn_name e = "UnknownVariantError"
        /\ exists msg, exn_message e = Some msg
                       /\ includes "minivan" msg = true).
Proof.
  intros (e & He & Hname & _).
  vm_compute in He. injection He as <-. discriminate Hname.
Qed.

(** ** The store *)

Section StoreFacts.
Context {O : Type}.
Implicit Types (h : gmap loc O) (l : loc) (o : O).

(** The location [new] takes is not in use. *)
Lemma fresh_unused h : h !! fresh (dom h) = None.
Proof. apply not_elem_of_dom, is_fresh. Qed.

Lemma fresh_neq h l o : h !! l = Some o -> fresh (dom h) <> l.
Proof. intros Hl <-. by rewrite fresh_unused in Hl. Qed.

Lemma read_eq h l o : h !! l = Some o -> read l h = Some (Return o, h).
Proof. intros Hl. unfold read. by rewrite Hl. Qed.

End StoreFacts.

(** One step of a computation: the first action of a [let*] is replaced
    by its result, given by the equation [lem]. *)
Ltac bind_step lem := unfold bind at 1; rewrite lem; lazy beta iota.

(** ** The customer builder *)

Section CustomerBuilderFacts.
Import Builder.
Implicit Types (h : gmap loc object) (b c d : loc) (s : ICustomer).
Implicit Types (cs : list setterCall).

Lemma assign_eq upd h b s :
  h !! b = Some (CustomerBuilderObj s) ->
  assign upd b h = Some (Return tt, <[b:=CustomerBuilderObj (upd s)]> h).
Proof.
  intros Hb. unfold assign, get_fields, bind, read, write, ret.
  by rewrite Hb.
Qed.

Lemma callSetter_eq (k : setterCall) h b s :
  h !! b = Some (CustomerBuilderObj s) ->
  callSetter k (VRef b) h
  = Some (Return (VRef b), <[b:=CustomerBuilderObj (setterUpdate k s)]> h).
Proof.
  intros Hb. destruct k as [[] v]; unfold callSetter, setterUpdate; simpl;
    unfold call_setFirstName, call_setLastName, call_setPhoneNumber,
      call_setEmail, methodCall, setFirstName, setLastName, setPhoneNumber,
      setEmail;
    unfold bind at 1; unfold read; rewrite Hb; simpl;
    unfold bind; by rewrite (assign_eq _ _ _ _ Hb).
Qed.

Lemma chain_eq cs : forall h b s,
  h !! b = Some (CustomerBuilderObj s) ->
  chain cs (VRef b) h
  = Some (Return (VRef b), <[b:=CustomerBuilderObj (applySetters cs s)]> h).
Proof.
  induction cs as [|k r IH]; intros h b s Hb; simpl.
  - unfold ret. by rewrite insert_id.
  - unfold bind. rewrite (callSetter_eq _ _ _ _ Hb).
    rewrite (IH _ _ (setterUpdate k s)) by apply lookup_insert_eq.
    by rewrite insert_insert_eq.
Qed.

Lemma resetCustomer_eq h b s :
  h !! b = Some (CustomerBuilderObj s) ->
  resetCustomer b h = Some (Return tt, <[b:=CustomerBuilderObj defaults]> h).
Proof.
  intros Hb. unfold resetCustomer, bind.
  rewrite (assign_eq _ _ _ _ Hb).
  erewrite assign_eq by apply lookup_insert_eq.
  erewrite assign_eq by apply lookup_insert_eq.
  erewrite assign_eq by apply lookup_insert_eq.
  by rewrite !insert_insert_eq.
Qed.

Lemma build_eq h b s :
  h !! b = Some (CustomerBuilderObj s) ->
  build b h
  = Some (Return (VRef (fresh (dom h))),
          <[b:=CustomerBuilderObj defaults]>
            (<[fresh (dom h):=CustomerObj s]> h)).
Proof.
  intros Hb. unfold build, get_fields, new_Customer, bind, read, alloc.
  rewrite Hb. simpl.
  erewrite resetCustomer_eq; [by destruct s|].
  rewrite lookup_insert_ne by by eapply fresh_neq. done.
Qed.

Lemma call_build_eq h b s :
  h !! b = Some (CustomerBuilderObj s) ->
  call_build (VRef b) h = build b h.
Proof.
  intros Hb. unfold call_build, methodCall, bind, read. by rewrite Hb.
Qed.

(** A director recipe on a bound builder: the setters assign the
    arguments, then [build] runs. *)
Lemma get_builder_eq h d v :
  h !! d = Some (CustomerDirectorObj v) ->
  get_builder d h = Some (Return v, h).
Proof. intros Hd. unfold get_builder, bind. by rewrite (read_eq _ _ _ Hd). Qed.

Lemma buildFullCustomer_eq h d b s f l p e :
  h !! d = Some (CustomerDirectorObj (VRef b)) ->
  h !! b = Some (CustomerBuilderObj s) ->
  buildFullCustomer d f l p e h
  = build b (<[b:=CustomerBuilderObj (mkCustomer f l p e)]> h).
Proof.
  intros Hd Hb. unfold buildFullCustomer.
  change (call_setFirstName f) with (callSetter (FirstName, f)).
  change (call_setLastName l) with (callSetter (LastName, l)).
  change (call_setPhoneNumber p) with (callSetter (PhoneNumber, p)).
  change (call_setEmail e) with (callSetter (Email, e)).
  bind_step (get_builder_eq _ _ _ Hd).
  bind_step (callSetter_eq (FirstName, f) _ _ _ Hb).
  do 3 (unfold bind at 1; erewrite callSetter_eq by apply lookup_insert_eq;
        lazy beta iota).
  rewrite !insert_insert_eq.
  by erewrite call_build_eq by apply lookup_insert_eq.
Qed.

Lemma buildMinimalCustomer_eq h d b s f l e :
  h !! d = Some (CustomerDirectorObj (VRef b)) ->
  h !! b = Some (CustomerBuilderObj s) ->
  buildMinimalCustomer d f l e h
  = build b (<[b:=CustomerBuilderObj (mkCustomer f l (phoneNumber s) e)]> h).
Proof.
  intros Hd Hb. unfold buildMinimalCustomer.
  change (call_setFirstName f) with (callSetter (FirstName, f)).
  change (call_setLastName l) with (callSetter (LastName, l)).
  change (call_setEmail e) with (callSetter (Email, e)).
  bind_step (get_builder_eq _ _ _ Hd).
  bind_step (callSetter_eq (FirstName, f) _ _ _ Hb).
  do 2 (unfold bind at 1; erewrite callSetter_eq by apply lookup_insert_eq;
        lazy beta iota).
  rewrite !insert_insert_eq.
  by erewrite call_build_eq by apply lookup_insert_eq.
Qed.

(** Operations on the builder [b] complete normally, leave every other
    object of the store as it is, and return only objects that did not
    exist before. *)
Lemma runOps_frame ops : forall h b s,
  h !! b = Some (CustomerBuilderObj s) ->
  exists vs h',
    runOps ops b h = Some (Return vs, h')
    /\ (forall l o, l <> b -> h !! l = Some o -> h' !! l = Some o)
    /\ (forall l, VRef l ∈ vs -> h !! l = None).
Proof.
  induction ops as [|[k|] r IH]; intros h b s Hb; cbn [runOps].
  - exists [], h. split; [done|]. split; [done|].
    intros l Hl. by apply elem_of_nil in Hl.
  - unfold bind. rewrite (callSetter_eq _ _ _ _ Hb).
    destruct (IH (<[b:=CustomerBuilderObj (setterUpdate k s)]> h) b
                (setterUpdate k s))
      as (vs & h' & Hrun & Hfr & Hnew); [apply lookup_insert_eq|].
    exists vs, h'. split; [done|]. split.
    + intros l o Hl Ho. apply Hfr; [done|]. by rewrite lookup_insert_ne.
    + intros l Hl. specialize (Hnew l Hl).
      destruct (decide (b = l)) as [->|Hne].
      * by rewrite lookup_insert_eq in Hnew.
      * by rewrite lookup_insert_ne in Hnew.
  - unfold bind at 1. rewrite (call_build_eq _ _ _ Hb), (build_eq _ _ _ Hb).
    destruct (IH (<[b:=CustomerBuilderObj defaults]>
                    (<[fresh (dom h):=CustomerObj s]> h)) b defaults)
      as (vs & h' & Hrun & Hfr & Hnew); [apply lookup_insert_eq|].
    unfold bind. rewrite Hrun.
    exists (VRef (fresh (dom h)) :: vs), h'. split; [done|]. split.
    + intros l o Hl Ho. apply Hfr; [done|].
      rewrite lookup_insert_ne by done.
      rewrite lookup_insert_ne; [done|]. by eapply fresh_neq.
    + intros l Hl. apply elem_of_cons in Hl as [[= ->]|Hl].
      * apply fresh_unused.
      * specialize (Hnew l Hl).
        destruct (decide (b = l)) as [->|Hne];
          [by rewrite lookup_insert_eq in Hnew|].
        rewrite lookup_insert_ne in Hnew by done.
        destruct (decide (fresh (dom h) = l)) as [<-|Hne'];
          [apply fresh_unused|].
        by rewrite lookup_insert_ne in Hnew.
Qed.

Lemma unset_applySetters f cs : forall s,
  unset f cs -> getField f (applySetters cs s) = getField f s.
Proof.
  induction cs as [|k r IH]; intros s Hun; [done|].
  apply Forall_cons in Hun as [Hk Hr].
  change (applySetters (k :: r) s) with (applySetters r (setterUpdate k s)).
  rewrite IH by done.
  destruct k as [g v], f, g; simpl in *; congruence.
Qed.

(** A chain of setter calls followed by [build()] returns a new
    customer with the fields the chain left in the builder. *)
Lemma chain_build_eq cs h b s :
  h !! b = Some (CustomerBuilderObj s) ->
  exists c h',
    (let* t := chain cs (VRef b) in call_build t) h
    = Some (Return (VRef c), h')
    /\ h' !! c = Some (CustomerObj (applySetters cs s)).
Proof.
  intros Hb.
  set (h0 := <[b:=CustomerBuilderObj (applySetters cs s)]> h).
  assert (Hb0 : h0 !! b = Some (CustomerBuilderObj (applySetters cs s)))
    by apply lookup_insert_eq.
  assert (Hcb : fresh (dom h0) <> b) by by eapply fresh_neq.
  eexists (fresh (dom h0)), _. split.
  { bind_step (chain_eq cs _ _ _ Hb). fold h0.
    by rewrite (call_build_eq _ _ _ Hb0), (build_eq _ _ _ Hb0). }
  rewrite lookup_insert_ne by done. apply lookup_insert_eq.
Qed.

(** C1.  After any chain of setter calls and [build()], the four
    fields of the builder are the empty string again: a second
    [build()] with no setter call in between returns a customer whose
    four fields are empty, in an object of its own, and the first
    customer keeps the values it was built with. *)
Theorem build_resets_builder cs h b s :
  h !! b = Some (CustomerBuilderObj s) ->
  exists c1 h1,
    (let* t := chain cs (VRef b) in call_build t) h
    = Some (Return (VRef c1), h1)
    /\ h1 !! c1 = Some (CustomerObj (applySetters cs s))
    /\ h1 !! b = Some (CustomerBuilderObj (mkCustomer "" "" "" ""))
    /\ exists c2 h2,
        call_build (VRef b) h1 = Some (Return (VRef c2), h2)
        /\ h2 !! c2 = Some (CustomerObj (mkCustomer "" "" "" ""))
        /\ c2 <> c1
        /\ h2 !! c1 = Some (CustomerObj (applySetters cs s))
        /\ h2 !! b = Some (CustomerBuilderObj (mkCustomer "" "" "" "")).
Proof.
  intros Hb.
  set (h0 := <[b:=CustomerBuilderObj (applySetters cs s)]> h).
  assert (Hb0 : h0 !! b = Some (CustomerBuilderObj (applySetters cs s)))
    by apply lookup_insert_eq.
  set (c1 := fresh (dom h0)).
  set (h1 := <[b:=CustomerBuilderObj defaults]>
               (<[c1:=CustomerObj (applySetters cs s)]> h0)).
  assert (Hc1b : c1 <> b) by by eapply fresh_neq.
  assert (Hb1 : h1 !! b = Some (CustomerBuilderObj defaults))
    by apply lookup_insert_eq.
  assert (Hc1 : h1 !! c1 = Some (CustomerObj (applySetters cs s))).
  { unfold h1. rewrite lookup_insert_ne by done. apply lookup_insert_eq. }
  exists c1, h1. split.
  { bind_step (chain_eq cs _ _ _ Hb). fold h0.
    by rewrite (call_build_eq _ _ _ Hb0), (build_eq _ _ _ Hb0). }
  do 2 (split; [done|]).
  set (c2 := fresh (dom h1)).
  assert (Hc2 : c2 <> c1) by by eapply fresh_neq.
  assert (Hc2b : c2 <> b) by by eapply fresh_neq.
  eexists c2, _. split.
  { by rewrite (call_build_eq _ _ _ Hb1), (build_eq _ _ _ Hb1). }
  split. { rewrite lookup_insert_ne by done. apply lookup_insert_eq. }
  split; [done|]. split.
  - by rewrite !lookup_insert_ne by done.
  - apply lookup_insert_eq.
Qed.

(** C6.  A setter called on a builder returns that same builder, and
    calling it twice, with [v1] and then with [v2], leaves the store as
    a single call with [v2] does: the builder with the field at
    [v2]. *)
Theorem setter_last_write_wins (f : field) (v1 v2 : string) h b s :
  h !! b = Some (CustomerBuilderObj s) ->
  (exists h1, callSetter (f, v1) (VRef b) h = Some (Return (VRef b), h1))
  /\ (let* t := callSetter (f, v1) (VRef b) in callSetter (f, v2) t) h
     = callSetter (f, v2) (VRef b) h
  /\ exists s2,
      callSetter (f, v2) (VRef b) h
      = Some (Return (VRef b), <[b:=CustomerBuilderObj s2]> h)
      /\ getField f s2 = v2
      /\ forall g, g <> f -> getField g s2 = getField g s.
Proof.
  intros Hb. split; [|split].
  - eexists. apply (callSetter_eq _ _ _ _ Hb).
  - bind_step (callSetter_eq (f, v1) _ _ _ Hb).
    erewrite callSetter_eq by apply lookup_insert_eq.
    rewrite insert_insert_eq, (callSetter_eq _ _ _ _ Hb).
    by destruct f.
  - exists (setterUpdate (f, v2) s). split; [apply (callSetter_eq _ _ _ _ Hb)|].
    split; [by destruct f|]. intros g Hg. by destruct f, g.
Qed.

(** C7.  The customer returned by [build()] is an object other than
    the builder, and whatever is done to the builder afterwards, setter
    calls and further [build()] calls in any order, the customer keeps
    its fields and is none of the customers returned later. *)
Theorem snapshot_independent ops h b s :
  h !! b = Some (CustomerBuilderObj s) ->
  exists c h1,
    build b h = Some (Return (VRef c), h1)
    /\ c <> b
    /\ h1 !! c = Some (CustomerObj s)
    /\ exists vs h2,
        runOps ops b h1 = Some (Return vs, h2)
        /\ h2 !! c = Some (CustomerObj s)
        /\ VRef c ∉ vs.
Proof.
  intros Hb. set (c := fresh (dom h)).
  assert (Hcb : c <> b) by by eapply fresh_neq.
  eexists c, _. split; [apply (build_eq _ _ _ Hb)|]. split; [done|].
  assert (Hc : (<[b:=CustomerBuilderObj defaults]>
                  (<[c:=CustomerObj s]> h)) !! c = Some (CustomerObj s)).
  { rewrite lookup_insert_ne by done. apply lookup_insert_eq. }
  split; [done|].
  destruct (runOps_frame ops
              (<[b:=CustomerBuilderObj defaults]> (<[c:=CustomerObj s]> h))
              b defaults)
    as (vs & h2 & Hrun & Hfr & Hnew); [apply lookup_insert_eq|].
  exists vs, h2. split; [done|]. split; [by apply Hfr|].
  intros Hin. apply Hnew in Hin. by rewrite Hc in Hin.
Qed.

(** C8.  On any builder, any chain of setter calls followed by
    [build()] completes without an exception and returns a customer; a
    field that no call of the chain set has the value the builder held
    for it, which is the empty string when the builder was new or just
    reset.  Nothing is checked, so this includes the empty chain. *)
Theorem build_never_throws cs h b s :
  h !! b = Some (CustomerBuilderObj s) ->
  (exists h0, chain cs (VRef b) h = Some (Return (VRef b), h0))
  /\ exists c h' cust,
      (let* t := chain cs (VRef b) in call_build t) h
      = Some (Return (VRef c), h')
      /\ h' !! c = Some (CustomerObj cust)
      /\ (forall f, unset f cs -> getField f cust = getField f s)
      /\ (s = mkCustomer "" "" "" "" ->
          forall f, unset f cs -> getField f cust = "").
Proof.
  intros Hb. split; [eexists; apply (chain_eq _ _ _ _ Hb)|].
  destruct (chain_build_eq cs h b s Hb) as (c & h' & Hrun & Hc).
  exists c, h', (applySetters cs s). do 2 (split; [done|]). split.
  - intros f Hf. by apply unset_applySetters.
  - intros -> f Hf. rewrite unset_applySetters by done. by destruct f.
Qed.

(** The two recipes run one after the other on a bound director. *)
Lemma recipes_in_sequence h d b s f1 l1 p1 e1 f2 l2 e2 :
  h !! d = Some (CustomerDirectorObj (VRef b)) ->
  h !! b = Some (CustomerBuilderObj s) ->
  exists c1 c2 h',
    (let* x := buildFullCustomer d f1 l1 p1 e1 in
     let* y := buildMinimalCustomer d f2 l2 e2 in
     ret (x, y)) h
    = Some (Return (VRef c1, VRef c2), h')
    /\ c1 <> c2
    /\ h' !! c1 = Some (CustomerObj (mkCustomer f1 l1 p1 e1))
    /\ h' !! c2 = Some (CustomerObj (mkCustomer f2 l2 "" e2)).
Proof.
  intros Hd Hb.
  assert (Hdb : d <> b) by congruence.
  set (s1 := mkCustomer f1 l1 p1 e1).
  set (h0 := <[b:=CustomerBuilderObj s1]> h).
  assert (Hb0 : h0 !! b = Some (CustomerBuilderObj s1))
    by apply lookup_insert_eq.
  set (c1 := fresh (dom h0)).
  set (h1 := <[b:=CustomerBuilderObj defaults]> (<[c1:=CustomerObj s1]> h0)).
  assert (Hd0 : h0 !! d = Some (CustomerDirectorObj (VRef b)))
    by by unfold h0; rewrite lookup_insert_ne.
  assert (Hc1b : c1 <> b) by by eapply fresh_neq.
  assert (Hc1d : c1 <> d) by by eapply fresh_neq.
  assert (Hb1 : h1 !! b = Some (CustomerBuilderObj defaults))
    by apply lookup_insert_eq.
  assert (Hd1 : h1 !! d = Some (CustomerDirectorObj (VRef b)))
    by by unfold h1; rewrite !lookup_insert_ne.
  assert (Hc1 : h1 !! c1 = Some (CustomerObj s1)).
  { unfold h1. rewrite lookup_insert_ne by done. apply lookup_insert_eq. }
  set (s2 := mkCustomer f2 l2 "" e2).
  set (h2 := <[b:=CustomerBuilderObj s2]> h1).
  assert (Hb2 : h2 !! b = Some (CustomerBuilderObj s2))
    by apply lookup_insert_eq.
  assert (Hc12 : h2 !! c1 = Some (CustomerObj s1))
    by by unfold h2; rewrite lookup_insert_ne.
  set (c2 := fresh (dom h2)).
  assert (Hc2b : c2 <> b) by by eapply fresh_neq.
  assert (Hc21 : c2 <> c1) by by eapply fresh_neq.
  exists c1, c2,
    (<[b:=CustomerBuilderObj defaults]> (<[c2:=CustomerObj s2]> h2)).
  split.
  { unfold bind at 1.
    rewrite (buildFullCustomer_eq _ _ _ _ _ _ _ _ Hd Hb). fold s1 h0.
    rewrite (build_eq _ _ _ Hb0). fold c1 h1. lazy beta iota.
    unfold bind at 1.
    rewrite (buildMinimalCustomer_eq _ _ _ _ _ _ _ Hd1 Hb1).
    change (phoneNumber defaults) with "". fold s2 h2.
    by rewrite (build_eq _ _ _ Hb2). }
  split; [done|]. split.
  - by rewrite !lookup_insert_ne by done.
  - rewrite lookup_insert_ne by done. apply lookup_insert_eq.
Qed.

(** C2.  On a director bound to one builder, [buildFullCustomer] with
    a phone number and then [buildMinimalCustomer("John", "Doe",
    "john@x.com")] return two customers; the first has the four values
    it was given, the second has the three values it was given and the
    empty string as its phone number. *)
Theorem full_then_minimal (phone : string) h d b s :
  h !! d = Some (CustomerDirectorObj (VRef b)) ->
  h !! b = Some (CustomerBuilderObj s) ->
  exists c1 c2 h',
    (let* x := buildFullCustomer d "abc" "123" phone "jane@x.com" in
     let* y := buildMinimalCustomer d "John" "Doe" "john@x.com" in
     ret (x, y)) h
    = Some (Return (VRef c1, VRef c2), h')
    /\ c1 <> c2
    /\ h' !! c1
       = Some (CustomerObj (mkCustomer "abc" "123" phone "jane@x.com"))
    /\ h' !! c2
       = Some (CustomerObj (mkCustomer "John" "Doe" "" "john@x.com")).
Proof. apply recipes_in_sequence. Qed.

(** C3, as the code has it.  On a director whose [builder] was never
    set, both recipes throw the runtime's [TypeError] for the read of
    [setFirstName] on [undefined]; no customer is returned and the
    store is as before. *)
Theorem unbound_director_throws_TypeError h d (f l p e : string) :
  h !! d = Some (CustomerDirectorObj VUndefined) ->
  buildMinimalCustomer d f l e h
  = Some (Throw (TypeError "setFirstName"), h)
  /\ buildFullCustomer d f l p e h
     = Some (Throw (TypeError "setFirstName"), h).
Proof.
  intros Hd. unfold buildMinimalCustomer, buildFullCustomer.
  split; by bind_step (get_builder_eq _ _ _ Hd).
Qed.

End CustomerBuilderFacts.

(** ** The part-list builder *)

Section ConcreteBuilderFacts.
Import Builder.
Implicit Types (h : gmap loc object) (b p : loc) (ps : list string).
Implicit Types (cs : list builderCall).

Lemma get_product_eq h b v :
  h !! b = Some (ConcreteBuilderObj v) ->
  get_product b h = Some (Return v, h).
Proof. intros Hb. unfold get_product, bind. by rewrite (read_eq _ _ _ Hb). Qed.

Lemma reset_eq h b v :
  h !! b = Some (ConcreteBuilderObj v) ->
  reset b h
  = Some (Return tt,
          <[b:=ConcreteBuilderObj (VRef (fresh (dom h)))]>
            (<[fresh (dom h):=ProductObj []]> h)).
Proof.
  intros Hb. unfold reset, new_Product.
  unfold bind at 1. unfold alloc. lazy beta iota zeta.
  assert (Hb' : <[fresh (dom h):=ProductObj []]> h !! b
                = Some (ConcreteBuilderObj v)).
  { rewrite lookup_insert_ne; [done|]. by eapply fresh_neq. }
  unfold set_product. by bind_step (read_eq _ _ _ Hb').
Qed.

Lemma setPart_eq part h b p ps :
  h !! b = Some (ConcreteBuilderObj (VRef p)) ->
  h !! p = Some (ProductObj ps) ->
  setPart part b h = Some (Return tt, <[p:=ProductObj (ps ++ [part])]> h).
Proof.
  intros Hb Hp. unfold setPart.
  bind_step (get_product_eq _ _ _ Hb).
  unfold methodCall. bind_step (read_eq _ _ _ Hp).
  unfold isProduct, add. by bind_step (read_eq _ _ _ Hp).
Qed.

Lemma getProduct_eq h b v :
  h !! b = Some (ConcreteBuilderObj v) ->
  getProduct b h
  = Some (Return v,
          <[b:=ConcreteBuilderObj (VRef (fresh (dom h)))]>
            (<[fresh (dom h):=ProductObj []]> h)).
Proof.
  intros Hb. unfold getProduct.
  bind_step (get_product_eq _ _ _ Hb). by bind_step (reset_eq _ _ _ Hb).
Qed.

Lemma new_ConcreteBuilder_eq h :
  let b := fresh (dom h) in
  let h1 := <[b:=ConcreteBuilderObj VUndefined]> h in
  new_ConcreteBuilder h
  = Some (Return b,
          <[b:=ConcreteBuilderObj (VRef (fresh (dom h1)))]>
            (<[fresh (dom h1):=ProductObj []]> h1)).
Proof.
  intros b h1. unfold new_ConcreteBuilder.
  unfold bind at 1. unfold alloc. lazy beta iota zeta. fold b h1.
  by bind_step (reset_eq h1 b VUndefined (lookup_insert_eq _ _ _)).
Qed.

(** After [reset] or [getProduct] the builder holds a new, empty
    product. *)
Lemma reset_state h b v :
  h !! b = Some (ConcreteBuilderObj v) ->
  let p := fresh (dom h) in
  let h' := <[b:=ConcreteBuilderObj (VRef p)]> (<[p:=ProductObj []]> h) in
  h' !! b = Some (ConcreteBuilderObj (VRef p))
  /\ h' !! p = Some (ProductObj []).
Proof.
  intros Hb p h'. split; [apply lookup_insert_eq|].
  unfold h'. rewrite lookup_insert_ne; [apply lookup_insert_eq|].
  apply not_eq_sym. by eapply fresh_neq.
Qed.

(** Any sequence of calls on a builder completes normally and leaves it
    with a product that holds the parts set since the last [reset] or
    [getProduct]. *)
Lemma runCalls_pending cs : forall h b p ps,
  h !! b = Some (ConcreteBuilderObj (VRef p)) ->
  h !! p = Some (ProductObj ps) ->
  exists vs h' p',
    runCalls cs b h = Some (Return vs, h')
    /\ h' !! b = Some (ConcreteBuilderObj (VRef p'))
    /\ h' !! p' = Some (ProductObj (pending ps cs)).
Proof.
  induction cs as [|[k| |] r IH]; intros h b p ps Hb Hp; cbn [runCalls].
  - by exists [], h, p.
  - assert (Hbp : p <> b) by congruence.
    destruct (IH (<[p:=ProductObj (ps ++ [partName k])]> h) b p
                (ps ++ [partName k])%list)
      as (vs & h' & p' & Hrun & Hb' & Hp');
      [by rewrite lookup_insert_ne|apply lookup_insert_eq|].
    exists vs, h', p'. split; [|done].
    unfold bind. replace (callPart k b h) with (setPart (partName k) b h)
      by by destruct k.
    by rewrite (setPart_eq _ _ _ _ _ Hb Hp).
  - destruct (reset_state _ _ _ Hb) as [Hb1 Hp1].
    destruct (IH _ b _ [] Hb1 Hp1) as (vs & h' & p' & Hrun & Hb' & Hp').
    exists vs, h', p'. split; [|done].
    unfold bind. by rewrite (reset_eq _ _ _ Hb).
  - destruct (reset_state _ _ _ Hb) as [Hb1 Hp1].
    destruct (IH _ b _ [] Hb1 Hp1) as (vs & h' & p' & Hrun & Hb' & Hp').
    exists (VRef p :: vs), h', p'. split; [|done].
    unfold bind. by rewrite (getProduct_eq _ _ _ Hb), Hrun.
Qed.

Lemma pending_parts (parts : list partCall) : forall ps,
  pending ps (CallPart <$> parts) = (ps ++ (partName <$> parts))%list.
Proof.
  induction parts as [|k r IH]; intros ps; simpl.
  - by rewrite app_nil_r.
  - change (pending (ps ++ [partName k])%list (CallPart <$> r)
            = (ps ++ partName k :: (partName <$> r))%list).
    by rewrite IH, <- app_assoc.
Qed.

Lemma pending_resetsLast cs : resetsLast cs = true -> pending [] cs = [].
Proof.
  destruct cs as [|k r] using rev_ind; [done|].
  unfold resetsLast, pending. rewrite last_snoc, foldl_app.
  by destruct k.
Qed.

(** C9.  On a new [ConcreteBuilder], after any calls that are none or
    end with a [reset] or a [getProduct], and then the part setters
    [parts], [getProduct()] returns a product whose parts are the names of
    [parts] in the order of the calls; with no setter call the list is
    empty. *)
Theorem getProduct_returns_parts cs (parts : list partCall) h0 :
  resetsLast cs = true ->
  exists b vs h p h',
    (let* b := new_ConcreteBuilder in
     let* vs := runCalls (cs ++ (CallPart <$> parts)) b in
     ret (b, vs)) h0
    = Some (Return (b, vs), h)
    /\ getProduct b h = Some (Return (VRef p), h')
    /\ h' !! p = Some (ProductObj (partName <$> parts))
    /\ (parts = [] -> h' !! p = Some (ProductObj [])).
Proof.
  intros Hcs.
  set (b := fresh (dom h0)).
  set (h1 := <[b:=ConcreteBuilderObj VUndefined]> h0).
  assert (Hb1 : h1 !! b = Some (ConcreteBuilderObj VUndefined))
    by apply lookup_insert_eq.
  destruct (reset_state _ _ _ Hb1) as [Hb2 Hp2].
  destruct (runCalls_pending (cs ++ (CallPart <$> parts)) _ _ _ _ Hb2 Hp2)
    as (vs & h & p & Hrun & Hb & Hp).
  unfold pending in Hp. rewrite foldl_app in Hp.
  fold (pending [] cs) in Hp. rewrite (pending_resetsLast _ Hcs) in Hp.
  fold (pending [] (CallPart <$> parts)) in Hp.
  rewrite pending_parts in Hp. simpl in Hp.
  assert (Hpb : fresh (dom h) <> p) by by eapply fresh_neq.
  assert (Hbp : b <> p) by congruence.
  eexists b, vs, h, p, _. split; [|split; [apply (getProduct_eq _ _ _ Hb)|]].
  - bind_step (new_ConcreteBuilder_eq h0). fold b h1.
    unfold bind. by rewrite Hrun.
  - assert (Hp' : <[b:=ConcreteBuilderObj (VRef (fresh (dom h)))]>
                    (<[fresh (dom h):=ProductObj []]> h) !! p
                  = Some (ProductObj (partName <$> parts)))
      by by rewrite !lookup_insert_ne.
    split; [done|]. by intros ->.
Qed.

End ConcreteBuilderFacts.

(** ** The prototype *)

Section PrototypeFacts.
Import Prototype.
Context {number : Type}.
Implicit Types (h : gmap loc (object number)) (o c u : loc).
Implicit Types (d : UserDetails number).

(** An instance with an own [userDetails] answers the property read with
    it. *)
Lemma get_userDetails_own h o pr u :
  h !! o = Some (PrototypeObj pr (Some u)) ->
  get_userDetails o h = Some (Return (VRef u), h).
Proof.
  intros Ho. unfold get_userDetails.
  destruct (size h) as [|n] eqn:Hsize.
  - apply map_size_empty_inv in Hsize. subst h.
    by rewrite lookup_empty in Ho.
  - simpl. by rewrite Ho.
Qed.

Lemma assignDetails_eq upd h u d :
  h !! u = Some (UserDetailsObj d) ->
  assignDetails upd u h = Some (Return tt, <[u:=UserDetailsObj (upd d)]> h).
Proof. intros Hu. unfold assignDetails. by bind_step (read_eq _ _ _ Hu). Qed.

Lemma clone_eq h o pr u d :
  h !! o = Some (PrototypeObj pr (Some u)) ->
  h !! u = Some (UserDetailsObj d) ->
  let c := fresh (dom h) in
  let h1 := <[c:=PrototypeObj (Some o) None]> h in
  let u' := fresh (dom h1) in
  clone o h
  = Some (Return (VRef c),
          <[c:=PrototypeObj (Some o) (Some u')]>
            (<[u':=UserDetailsObj d]> h1)).
Proof.
  intros Ho Hu c h1 u'.
  assert (Hco : c <> o) by by eapply fresh_neq.
  assert (Hcu : c <> u) by by eapply fresh_neq.
  assert (Ho1 : h1 !! o = Some (PrototypeObj pr (Some u)))
    by by unfold h1; rewrite lookup_insert_ne.
  assert (Hu1 : h1 !! u = Some (UserDetailsObj d))
    by by unfold h1; rewrite lookup_insert_ne.
  assert (Hc1 : h1 !! c = Some (PrototypeObj (Some o) None))
    by apply lookup_insert_eq.
  assert (Hu'c : u' <> c) by by eapply fresh_neq.
  unfold clone, Object_create.
  unfold bind at 1. bind_step (read_eq _ _ _ Ho).
  unfold alloc. lazy beta iota zeta. fold c h1.
  bind_step (get_userDetails_own _ _ _ _ Ho1).
  unfold spread. unfold bind at 1. bind_step (read_eq _ _ _ Hu1).
  unfold alloc. lazy beta iota zeta. fold u'.
  assert (Hc2 : <[u':=UserDetailsObj d]> h1 !! c
                = Some (PrototypeObj (Some o) None))
    by by rewrite lookup_insert_ne.
  unfold set_userDetails. unfold bind at 1.
  by bind_step (read_eq _ _ _ Hc2).
Qed.

(** C10.  [clone()] returns a new object whose [getUserDetails()] is a
    new [UserDetails] object with the name, age and email of the
    original's.  An assignment to fields of the clone's details leaves the
    original's details as they were, and an assignment to fields of the
    original's details leaves the clone's as they were. *)
Theorem clone_copies_userDetails h o pr u d :
  h !! o = Some (PrototypeObj pr (Some u)) ->
  h !! u = Some (UserDetailsObj d) ->
  exists c u' h',
    clone o h = Some (Return (VRef c), h')
    /\ c <> o /\ u' <> u
    /\ getUserDetails c h' = Some (Return (VRef u'), h')
    /\ h' !! u' = Some (UserDetailsObj d)
    /\ getUserDetails o h' = Some (Return (VRef u), h')
    /\ h' !! u = Some (UserDetailsObj d)
    /\ (forall upd, exists h'',
          assignDetails upd u' h' = Some (Return tt, h'')
          /\ h'' !! u' = Some (UserDetailsObj (upd d))
          /\ getUserDetails o h'' = Some (Return (VRef u), h'')
          /\ h'' !! u = Some (UserDetailsObj d))
    /\ (forall upd, exists h'',
          assignDetails upd u h' = Some (Return tt, h'')
          /\ h'' !! u = Some (UserDetailsObj (upd d))
          /\ getUserDetails c h'' = Some (Return (VRef u'), h'')
          /\ h'' !! u' = Some (UserDetailsObj d)).
Proof.
  intros Ho Hu.
  pose proof (clone_eq _ _ _ _ _ Ho Hu) as Hclone. simpl in Hclone.
  set (c := fresh (dom h)) in *.
  set (h1 := <[c:=PrototypeObj (Some o) None]> h) in *.
  set (u' := fresh (dom h1)) in *.
  set (h' := <[c:=PrototypeObj (Some o) (Some u')]>
               (<[u':=UserDetailsObj d]> h1)) in *.
  assert (Hco : c <> o) by by eapply fresh_neq.
  assert (Hcu : c <> u) by by eapply fresh_neq.
  assert (Ho1 : h1 !! o = Some (PrototypeObj pr (Some u)))
    by by unfold h1; rewrite lookup_insert_ne.
  assert (Hu1 : h1 !! u = Some (UserDetailsObj d))
    by by unfold h1; rewrite lookup_insert_ne.
  assert (Hu'c : u' <> c)
    by (eapply fresh_neq; apply lookup_insert_eq).
  assert (Hu'o : u' <> o) by by eapply fresh_neq.
  assert (Hu'u : u' <> u) by by eapply fresh_neq.
  assert (Hc' : h' !! c = Some (PrototypeObj (Some o) (Some u')))
    by apply lookup_insert_eq.
  assert (Ho' : h' !! o = Some (PrototypeObj pr (Some u)))
    by by unfold h'; rewrite !lookup_insert_ne.
  assert (Hu' : h' !! u = Some (UserDetailsObj d))
    by by unfold h'; rewrite !lookup_insert_ne.
  assert (Hu'' : h' !! u' = Some (UserDetailsObj d)).
  { unfold h'. rewrite lookup_insert_ne by done. apply lookup_insert_eq. }
  exists c, u', h'. split; [done|]. do 2 (split; [done|]).
  split; [by eapply get_userDetails_own|]. split; [done|].
  split; [by eapply get_userDetails_own|]. split; [done|]. split.
  - intros upd. eexists. split; [apply (assignDetails_eq _ _ _ _ Hu'')|].
    split; [apply lookup_insert_eq|]. split.
    + eapply get_userDetails_own. by rewrite lookup_insert_ne.
    + by rewrite lookup_insert_ne.
  - intros upd. eexists. split; [apply (assignDetails_eq _ _ _ _ Hu')|].
    split; [apply lookup_insert_eq|]. split.
    + eapply get_userDetails_own. by rewrite lookup_insert_ne.
    + by rewrite lookup_insert_ne.
Qed.

End PrototypeFacts.

Lemma build_resets_builder_witness :
  let h : gmap loc Builder.object :=
    {[1%positive :=
        Builder.CustomerBuilderObj (Builder.mkCustomer "a" "" "" "")]} in
  exists c1 h1,
    (let* t := Builder.chain [(Builder.Email, "a@x.com")] (VRef 1%positive) in
     Builder.call_build t) h
    = Some (Return (VRef c1), h1)
    /\ h1 !! 1%positive
       = Some (Builder.CustomerBuilderObj (Builder.mkCustomer "" "" "" "")).
Proof.
  intros h.
  destruct (build_resets_builder [(Builder.Email, "a@x.com")] h 1%positive
              (Builder.mkCustomer "a" "" "" "") eq_refl)
    as (c1 & h1 & Hrun & _ & Hb & _).
  exists c1, h1. split; assumption.
Defined.

Lemma setter_last_write_wins_witness :
  let h : gmap loc Builder.object :=
    {[1%positive := Builder.CustomerBuilderObj Builder.defaults]} in
  (let* t := Builder.callSetter (Builder.Email, "a@x.com") (VRef 1%positive) in
   Builder.callSetter (Builder.Email, "b@x.com") t) h
  = Builder.callSetter (Builder.Email, "b@x.com") (VRef 1%positive) h.
Proof.
  intros h.
  apply (setter_last_write_wins Builder.Email "a@x.com" "b@x.com" h 1%positive
           Builder.defaults eq_refl).
Defined.

Lemma snapshot_independent_witness :
  let h : gmap loc Builder.object :=
    {[1%positive :=
        Builder.CustomerBuilderObj (Builder.mkCustomer "a" "b" "c" "d")]} in
  exists c h1,
    Builder.build 1%positive h = Some (Return (VRef c), h1)
    /\ exists vs h2,
        Builder.runOps [Builder.OpSet (Builder.FirstName, "z"); Builder.OpBuild]
          1%positive h1 = Some (Return vs, h2)
        /\ h2 !! c
           = Some (Builder.CustomerObj (Builder.mkCustomer "a" "b" "c" "d")).
Proof.
  intros h.
  destruct (snapshot_independent
              [Builder.OpSet (Builder.FirstName, "z"); Builder.OpBuild]
              h 1%positive (Builder.mkCustomer "a" "b" "c" "d") eq_refl)
    as (c & h1 & Hb & _ & _ & vs & h2 & Hrun & Hc & _).
  exists c, h1. split; [assumption|]. exists vs, h2. split; assumption.
Defined.

Lemma build_never_throws_witness :
  let h : gmap loc Builder.object :=
    {[1%positive := Builder.CustomerBuilderObj Builder.defaults]} in
  exists c h',
    (let* t := Builder.chain [] (VRef 1%positive) in Builder.call_build t) h
    = Some (Return (VRef c), h').
Proof.
  intros h.
  destruct (build_never_throws [] h 1%positive Builder.defaults eq_refl)
    as (_ & c & h' & cust & Hrun & _).
  exists c, h'. assumption.
Defined.

Lemma full_then_minimal_witness :
  exists c1 c2 h',
    (let* b := Builder.new_CustomerBuilder in
     let* d := Builder.new_CustomerDirector in
     let* _ := Builder.setBuilder d (VRef b) in
     let* x := Builder.buildFullCustomer d
                 "abc" "123" "123-456-7890" "jane@x.com" in
     let* y := Builder.buildMinimalCustomer d "John" "Doe" "john@x.com" in
     ret (x, y)) ∅
    = Some (Return (VRef c1, VRef c2), h')
    /\ h' !! c2
       = Some (Builder.CustomerObj
                 (Builder.mkCustomer "John" "Doe" "" "john@x.com")).
Proof.
  pose (h := <[2%positive:=Builder.CustomerDirectorObj (VRef 1%positive)]>
               (<[2%positive:=Builder.CustomerDirectorObj VUndefined]>
                  (<[1%positive:=Builder.CustomerBuilderObj Builder.defaults]>
                     (∅ : gmap loc Builder.object)))).
  assert (Hd : h !! 2%positive
               = Some (Builder.CustomerDirectorObj (VRef 1%positive)))
    by (vm_compute; reflexivity).
  assert (Hb : h !! 1%positive
               = Some (Builder.CustomerBuilderObj Builder.defaults))
    by (vm_compute; reflexivity).
  destruct (full_then_minimal "123-456-7890" h 2%positive 1%positive
              Builder.defaults Hd Hb)
    as (c1 & c2 & h' & Hrun & _ & _ & Hc2).
  exists c1, c2, h'. split; [exact Hrun|exact Hc2].
Defined.

Lemma unbound_director_throws_TypeError_witness :
  let h : gmap loc Builder.object :=
    {[1%positive := Builder.CustomerDirectorObj VUndefined]} in
  Builder.buildMinimalCustomer 1%positive "John" "Doe" "john@x.com" h
  = Some (Throw (TypeError "setFirstName"), h).
Proof.
  intros h.
  apply (unbound_director_throws_TypeError h 1%positive
           "John" "Doe" "" "john@x.com" eq_refl).
Defined.

Lemma getProduct_returns_parts_witness :
  exists b vs h p h',
    (let* b := Builder.new_ConcreteBuilder in
     let* vs := Builder.runCalls
                  [Builder.CallPart Builder.CallPartC; Builder.CallGetProduct;
                   Builder.CallPart Builder.CallPartA;
                   Builder.CallPart Builder.CallPartB] b in
     ret (b, vs)) ∅
    = Some (Return (b, vs), h)
    /\ Builder.getProduct b h = Some (Return (VRef p), h')
    /\ h' !! p = Some (Builder.ProductObj ["PartA"; "PartB"]).
Proof.
  destruct (getProduct_returns_parts
              [Builder.CallPart Builder.CallPartC; Builder.CallGetProduct]
              [Builder.CallPartA; Builder.CallPartB] ∅ eq_refl)
    as (b & vs & h & p & h' & Hrun & Hget & Hp & _).
  exists b, vs, h, p, h'. split; [exact Hrun|]. split; [exact Hget|exact Hp].
Defined.

Lemma clone_copies_userDetails_witness :
  let alice := Prototype.mkUserDetails "Alice" 30%Z "alice@example.com" in
  exists c u' h',
    (let* u := alloc (Prototype.UserDetailsObj alice) in
     let* user1 := Prototype.new_ConcretePrototype u in
     Prototype.clone user1) ∅
    = Some (Return (VRef c), h')
    /\ Prototype.getUserDetails c h' = Some (Return (VRef u'), h')
    /\ h' !! u' = Some (Prototype.UserDetailsObj alice)
    /\ exists h'',
        Prototype.assignDetails (Prototype.with_name "Bob") u' h'
        = Some (Return tt, h'')
        /\ h'' !! 1%positive = Some (Prototype.UserDetailsObj alice).
Proof.
  intros alice.
  pose (h := <[2%positive:=Prototype.PrototypeObj None (Some 1%positive)]>
               (<[1%positive:=Prototype.UserDetailsObj alice]>
                  (∅ : gmap loc (Prototype.object Z)))).
  assert (Ho : h !! 2%positive
               = Some (Prototype.PrototypeObj None (Some 1%positive)))
    by (vm_compute; reflexivity).
  assert (Hu : h !! 1%positive = Some (Prototype.UserDetailsObj alice))
    by (vm_compute; reflexivity).
  destruct (clone_copies_userDetails h 2%positive None 1%positive alice Ho Hu)
    as (c & u' & h' & Hclone & _ & _ & Hget & Hu' & _ & _ & Hupd & _).
  destruct (Hupd (Prototype.with_name "Bob")) as (h'' & Hset & _ & _ & Hkeep).
  exists c, u', h'. split; [exact Hclone|]. do 2 (split; [assumption|]).
  exists h''. split; assumption.
Defined.

(** C3, as the specification has it, fails on a new director: the recipe
    does not end in a [BuilderNotBoundError]. *)
Lemma unbound_director_not_BuilderNotBoundError :
  ~ (exists e h',
        (let* d := Builder.new_CustomerDirector in
         Builder.buildMinimalCustomer d "John" "Doe" "john@x.com") ∅
        = Some (Throw e, h')
        /\ exn_name e = "BuilderNotBoundError").
Proof.
  intros (e & h' & Hrun & Hname).
  vm_compute in Hrun. injection Hrun as <- _. discriminate Hname.
Qed.

(** * Further properties *)

(** ** The two factories *)

Section FactoriesFacts.
Context {number : Type}.
Implicit Types (m tag type : string) (y a : number).

(** X1.  Both factories give the same result for a tag and for the
    lowercase form of that tag. *)
Theorem factories_ignore_case tag m y a :
  Factory.createCar (toLowerCase tag) m y = Factory.createCar tag m y
  /\ Payment.createProcessor (toLowerCase tag) a
     = Payment.createProcessor tag a.
Proof.
  unfold Factory.createCar, Payment.createProcessor.
  by rewrite toLowerCase_idem.
Qed.

(** X2.  [createProcessor] returns a processor exactly when the lowercase
    form of the type is one of the three case labels, and the processor is
    then of the class of that label and holds the amount passed in. *)
Theorem createProcessor_returns type a (p : Payment.PaymentProcessor number) :
  Payment.createProcessor type a = Return p
  <-> (toLowerCase type = "paypal"
       /\ p = Payment.mkProcessor Payment.PayPal a)
      \/ (toLowerCase type = "stripe"
          /\ p = Payment.mkProcessor Payment.Stripe a)
      \/ (toLowerCase type = "banktransfer"
          /\ p = Payment.mkProcessor Payment.BankTransfer a).
Proof.
  unfold Payment.createProcessor, Payment.new_PayPalProcessor,
    Payment.new_StripeProcessor, Payment.new_BankTransferProcessor.
  destruct (String.eqb_spec (toLowerCase type) "paypal") as [->|H1];
    [split; [intros [= <-]; by left|intros [[_ ->]|[[? _]|[? _]]]; done]|].
  destruct (String.eqb_spec (toLowerCase type) "stripe") as [->|H2];
    [split; [intros [= <-]; right; by left
            |intros [[? _]|[[_ ->]|[? _]]]; done]|].
  destruct (String.eqb_spec (toLowerCase type) "banktransfer") as [->|H3];
    [split; [intros [= <-]; right; by right
            |intros [[? _]|[[? _]|[_ ->]]]; done]|].
  split; [done|]. intros [[? _]|[[? _]|[? _]]]; done.
Qed.

(** X3.  [createProcessor] throws exactly when the lowercase form of the
    type is none of the three case labels, and what it throws is the plain
    [Error] with the message "Invalid payment processor type". *)
Theorem createProcessor_throws type a e :
  Payment.createProcessor type a = Throw e
  <-> toLowerCase type <> "paypal"
      /\ toLowerCase type <> "stripe"
      /\ toLowerCase type <> "banktransfer"
      /\ e = Error "Invalid payment processor type".
Proof.
  unfold Payment.createProcessor.
  destruct (String.eqb_spec (toLowerCase type) "paypal") as [->|H1];
    [split; [done|by intros [? _]]|].
  destruct (String.eqb_spec (toLowerCase type) "stripe") as [->|H2];
    [split; [done|by intros (_ & ? & _)]|].
  destruct (String.eqb_spec (toLowerCase type) "banktransfer") as [->|H3];
    [split; [done|by intros (_ & _ & ? & _)]|].
  split; [by intros [= <-]|by intros (_ & _ & _ & ->)].
Qed.

End FactoriesFacts.

(** ** The director and the runs of the part-list builder *)

Section DirectorFacts.
Import Builder Director Runs.
Implicit Types (h : gmap loc object) (b p : loc) (ps : list string).
Implicit Types (cs : list builderCall) (d : Director.Director).

Lemma Forall2_elem_l {A B} (P : A -> B -> Prop) (l : list A) (k : list B) x :
  Forall2 P l k -> x ∈ l -> exists y, P x y.
Proof.
  induction 1 as [|a c l k Hac _ IH]; intros Hx.
  - by apply elem_of_nil in Hx.
  - apply elem_of_cons in Hx as [->|Hx]; [by exists c|by apply IH].
Qed.

Lemma runRecipe_eq r d h b p ps :
  builder d = VRef b ->
  h !! b = Some (ConcreteBuilderObj (VRef p)) ->
  h !! p = Some (ProductObj ps) ->
  runRecipe r d h
  = Some (Return tt, <[p:=ProductObj (ps ++ recipeParts r)]> h).
Proof.
  intros Hd Hb Hp. assert (Hpb : p <> b) by congruence.
  destruct r; unfold runRecipe, buildMinimalViableProduct,
    buildFullFeaturedProduct, call_setPartA, call_setPartB, call_setPartC,
    methodCall; rewrite Hd.
  - bind_step (read_eq _ _ _ Hb). apply (setPart_eq _ _ _ _ _ Hb Hp).
  - unfold bind at 1. bind_step (read_eq _ _ _ Hb).
    unfold isConcreteBuilder, setPartA. rewrite (setPart_eq _ _ _ _ _ Hb Hp).
    assert (Hb1 : <[p:=ProductObj (ps ++ ["PartA"])]> h !! b
                  = Some (ConcreteBuilderObj (VRef p)))
      by by rewrite lookup_insert_ne.
    unfold bind at 1. bind_step (read_eq _ _ _ Hb1).
    unfold setPartB.
    rewrite (setPart_eq "PartB" _ _ _ _ Hb1 (lookup_insert_eq _ _ _)).
    rewrite insert_insert_eq.
    assert (Hb2 : <[p:=ProductObj ((ps ++ ["PartA"]) ++ ["PartB"])]> h !! b
                  = Some (ConcreteBuilderObj (VRef p)))
      by by rewrite lookup_insert_ne.
    bind_step (read_eq _ _ _ Hb2). unfold setPartC.
    rewrite (setPart_eq "PartC" _ _ _ _ Hb2 (lookup_insert_eq _ _ _)).
    by rewrite insert_insert_eq, <- !app_assoc.
Qed.

(** X4.  On a director bound to a builder, recipes add their parts to the
    product the builder is working on and nothing resets it in between:
    after a sequence of recipes the product holds the parts it had,
    followed by the parts of every recipe in order, [getProduct()] returns
    that product, and every other object is as before. *)
Theorem director_recipes_accumulate (rs : list recipe) d0 h b p ps :
  h !! b = Some (ConcreteBuilderObj (VRef p)) ->
  h !! p = Some (ProductObj ps) ->
  exists h' h'',
    runRecipes rs (setBuilder d0 (VRef b)) h = Some (Return tt, h')
    /\ h' !! p = Some (ProductObj (ps ++ concat (recipeParts <$> rs)))
    /\ (forall l, l <> p -> h' !! l = h !! l)
    /\ getProduct b h' = Some (Return (VRef p), h'')
    /\ h'' !! p = Some (ProductObj (ps ++ concat (recipeParts <$> rs))).
Proof.
  intros Hb Hp.
  assert (Hrun : forall rs' h1 ps1,
    h1 !! b = Some (ConcreteBuilderObj (VRef p)) ->
    h1 !! p = Some (ProductObj ps1) ->
    runRecipes rs' (setBuilder d0 (VRef b)) h1
    = Some (Return tt,
            <[p:=ProductObj (ps1 ++ concat (recipeParts <$> rs'))]> h1)).
  { induction rs' as [|r rest IH]; intros h1 ps1 Hb1 Hp1; simpl.
    - unfold ret. by rewrite app_nil_r, insert_id.
    - bind_step (runRecipe_eq r (setBuilder d0 (VRef b)) h1 b p ps1
                   eq_refl Hb1 Hp1).
      assert (Hpb : p <> b) by congruence.
      rewrite (IH _ (ps1 ++ recipeParts r)%list);
        [|by rewrite lookup_insert_ne|apply lookup_insert_eq].
      by rewrite insert_insert_eq, <- app_assoc. }
  assert (Hpb : p <> b) by congruence.
  set (h' := <[p:=ProductObj (ps ++ concat (recipeParts <$> rs))]> h).
  assert (Hb' : h' !! b = Some (ConcreteBuilderObj (VRef p)))
    by by unfold h'; rewrite lookup_insert_ne.
  assert (Hp' : h' !! p
                = Some (ProductObj (ps ++ concat (recipeParts <$> rs))))
    by apply lookup_insert_eq.
  eexists h', _. split; [by apply Hrun|]. split; [done|]. split.
  { intros l Hl. by apply lookup_insert_ne. }
  split; [apply (getProduct_eq _ _ _ Hb')|].
  rewrite lookup_insert_ne by done.
  rewrite lookup_insert_ne; [done|]. by eapply fresh_neq.
Qed.

(** X5.  On a director whose [builder] was never set, both recipes throw
    the runtime's [TypeError] for the read of [setPartA] on [undefined];
    the store is as before. *)
Theorem unbound_Director_throws (r : recipe) h :
  runRecipe r new_Director h = Some (Throw (TypeError "setPartA"), h).
Proof. by destruct r. Qed.

(** Any sequence of calls on a builder completes normally; the products
    it returns are the builder's first product or new objects, they hold
    the expected parts at the end, and no call touches an object other
    than the builder and the product it is working on. *)
Lemma runCalls_products_inv cs : forall h b p ps,
  h !! b = Some (ConcreteBuilderObj (VRef p)) ->
  h !! p = Some (ProductObj ps) ->
  exists vs h' p',
    runCalls cs b h = Some (Return vs, h')
    /\ h' !! b = Some (ConcreteBuilderObj (VRef p'))
    /\ h' !! p' = Some (ProductObj (pending ps cs))
    /\ Forall2 (fun v parts => exists l,
                  v = VRef l /\ (l = p \/ h !! l = None)
                  /\ h' !! l = Some (ProductObj parts))
         vs (expectedProducts ps cs)
    /\ NoDup vs
    /\ (VRef p' ∉ vs)
    /\ (forall l o, l <> b -> l <> p -> h !! l = Some o -> h' !! l = Some o)
    /\ (p' = p \/ h !! p' = None).
Proof.
  induction cs as [|[k| |] r IH]; intros h b p ps Hb Hp; cbn [runCalls].
  - exists [], h, p. split; [done|]. do 2 (split; [done|]).
    split; [constructor|]. split; [constructor|].
    split; [apply not_elem_of_nil|]. split; [done|by left].
  - assert (Hpb : p <> b) by congruence.
    destruct (IH (<[p:=ProductObj (ps ++ [partName k])]> h) b p
                (ps ++ [partName k])%list)
      as (vs & h' & p' & Hrun & Hb' & Hp' & HA & HB & HC & HD & HE);
      [by rewrite lookup_insert_ne|apply lookup_insert_eq|].
    exists vs, h', p'. split.
    { unfold bind. replace (callPart k b h) with (setPart (partName k) b h)
        by by destruct k.
      by rewrite (setPart_eq _ _ _ _ _ Hb Hp). }
    do 2 (split; [done|]). split.
    { eapply Forall2_impl; [exact HA|].
      intros v parts (l & -> & Hl & Hl'). exists l. split; [done|].
      split; [|done]. destruct Hl as [->|Hl]; [by left|].
      destruct (decide (p = l)) as [->|Hne]; [by left|].
      right. by rewrite lookup_insert_ne in Hl. }
    do 2 (split; [done|]). split.
    { intros l o Hlb Hlp Hl. apply HD; [done..|].
      by rewrite lookup_insert_ne. }
    destruct HE as [->|HE]; [by left|].
    destruct (decide (p = p')) as [->|Hne]; [by left|].
    right. by rewrite lookup_insert_ne in HE.
  - destruct (reset_state _ _ _ Hb) as [Hb1 Hp1].
    set (p1 := fresh (dom h)) in *.
    set (h1 := <[b:=ConcreteBuilderObj (VRef p1)]>
                 (<[p1:=ProductObj []]> h)) in *.
    assert (Hp1n : h !! p1 = None) by apply fresh_unused.
    assert (Hsub : forall l, h1 !! l = None -> h !! l = None).
    { intros l Hl. unfold h1 in Hl.
      destruct (decide (b = l)) as [->|Hne];
        [by rewrite lookup_insert_eq in Hl|].
      rewrite lookup_insert_ne in Hl by done.
      destruct (decide (p1 = l)) as [->|Hne']; [done|].
      by rewrite lookup_insert_ne in Hl. }
    destruct (IH h1 b p1 [] Hb1 Hp1)
      as (vs & h' & p' & Hrun & Hb' & Hp' & HA & HB & HC & HD & HE).
    exists vs, h', p'. split.
    { unfold bind. rewrite (reset_eq _ _ _ Hb). by fold p1 h1. }
    do 2 (split; [done|]). split.
    { eapply Forall2_impl; [exact HA|].
      intros v parts (l & -> & Hl & Hl'). exists l. split; [done|].
      split; [|done]. right. destruct Hl as [->|Hl]; [done|by apply Hsub]. }
    do 2 (split; [done|]). split.
    { intros l o Hlb Hlp Hl. apply HD; [done|congruence|].
      unfold h1. rewrite lookup_insert_ne by done.
      rewrite lookup_insert_ne; [done|congruence]. }
    right. destruct HE as [->|HE]; [done|by apply Hsub].
  - destruct (reset_state _ _ _ Hb) as [Hb1 Hp1].
    set (p1 := fresh (dom h)) in *.
    set (h1 := <[b:=ConcreteBuilderObj (VRef p1)]>
                 (<[p1:=ProductObj []]> h)) in *.
    assert (Hp1n : h !! p1 = None) by apply fresh_unused.
    assert (Hpb : p <> b) by congruence.
    assert (Hpp1 : p <> p1) by congruence.
    assert (Hp' : h1 !! p = Some (ProductObj ps)).
    { unfold h1. rewrite lookup_insert_ne by done.
      by rewrite lookup_insert_ne. }
    assert (Hsub : forall l, h1 !! l = None -> h !! l = None).
    { intros l Hl. unfold h1 in Hl.
      destruct (decide (b = l)) as [->|Hne];
        [by rewrite lookup_insert_eq in Hl|].
      rewrite lookup_insert_ne in Hl by done.
      destruct (decide (p1 = l)) as [->|Hne']; [done|].
      by rewrite lookup_insert_ne in Hl. }
    destruct (IH h1 b p1 [] Hb1 Hp1)
      as (vs & h' & p' & Hrun & Hb' & Hp'' & HA & HB & HC & HD & HE).
    assert (Hpvs : VRef p ∉ vs).
    { intros Hin. destruct (Forall2_elem_l _ _ _ _ HA Hin)
        as (parts & l & [= <-] & Hl & _).
      destruct Hl as [->|Hl]; [done|]. by rewrite Hp' in Hl. }
    exists (VRef p :: vs), h', p'. split.
    { unfold bind. rewrite (getProduct_eq _ _ _ Hb). fold p1 h1.
      by rewrite Hrun. }
    do 2 (split; [done|]). split.
    { constructor.
      - exists p. split; [done|]. split; [by left|]. by apply HD.
      - eapply Forall2_impl; [exact HA|].
        intros v parts (l & -> & Hl & Hl'). exists l. split; [done|].
        split; [|done]. right.
        destruct Hl as [->|Hl]; [done|by apply Hsub]. }
    split; [by constructor|]. split.
    { apply not_elem_of_cons. split; [|done]. intros [= ->].
      destruct HE as [HE|HE]; [done|]. by rewrite Hp' in HE. }
    split.
    { intros l o Hlb Hlp Hl. apply HD; [done|congruence|].
      unfold h1. rewrite lookup_insert_ne by done.
      rewrite lookup_insert_ne; [done|congruence]. }
    right. destruct HE as [->|HE]; [done|by apply Hsub].
Qed.

(** X6.  Any sequence of part setters, [reset] and [getProduct] calls on
    a builder completes without an exception.  The products returned by
    the [getProduct] calls are pairwise different objects, none of them is
    the product the builder works on afterwards, and at the end of the
    run each still holds the parts that were set between the [reset] or
    [getProduct] before it and the call that returned it. *)
Theorem runCalls_products cs h b p ps :
  h !! b = Some (ConcreteBuilderObj (VRef p)) ->
  h !! p = Some (ProductObj ps) ->
  exists vs h' p',
    runCalls cs b h = Some (Return vs, h')
    /\ h' !! b = Some (ConcreteBuilderObj (VRef p'))
    /\ (VRef p' ∉ vs)
    /\ NoDup vs
    /\ Forall2 (fun v parts => exists l,
                  v = VRef l /\ h' !! l = Some (ProductObj parts))
         vs (expectedProducts ps cs).
Proof.
  intros Hb Hp.
  destruct (runCalls_products_inv cs h b p ps Hb Hp)
    as (vs & h' & p' & Hrun & Hb' & _ & HA & HB & HC & _).
  exists vs, h', p'. do 4 (split; [done|]).
  eapply Forall2_impl; [exact HA|].
  intros v parts (l & -> & _ & Hl). by exists l.
Qed.

End DirectorFacts.

(** ** More on the customer builder and its director *)

Section CustomerRunsFacts.
Import Builder Runs.
Implicit Types (h : gmap loc object) (b c d : loc) (s : ICustomer).
Implicit Types (cs : list setterCall) (ops : list builderOp).

Lemma runOps_customers_inv ops : forall h b s,
  h !! b = Some (CustomerBuilderObj s) ->
  exists vs h' s',
    runOps ops b h = Some (Return vs, h')
    /\ h' !! b = Some (CustomerBuilderObj s')
    /\ Forall2 (fun v k => newObject h h' v (CustomerObj k))
         vs (expectedCustomers s ops)
    /\ NoDup vs
    /\ (forall l o, l <> b -> h !! l = Some o -> h' !! l = Some o).
Proof.
  induction ops as [|[k|] r IH]; intros h b s Hb; cbn [runOps].
  - exists [], h, s. split; [done|]. split; [done|].
    split; [constructor|]. split; [constructor|done].
  - set (h1 := <[b:=CustomerBuilderObj (setterUpdate k s)]> h).
    destruct (IH h1 b (setterUpdate k s)) as (vs & h' & s' & Hrun & Hb' & HA & HB & HD);
      [apply lookup_insert_eq|].
    exists vs, h', s'. split.
    { unfold bind. rewrite (callSetter_eq _ _ _ _ Hb). by fold h1. }
    split; [done|]. split.
    { eapply Forall2_impl; [exact HA|].
      intros v o (l & -> & Hl & Hl'). exists l. split; [done|].
      split; [|done]. unfold h1 in Hl.
      destruct (decide (b = l)) as [->|Hne];
        [by rewrite lookup_insert_eq in Hl|].
      by rewrite lookup_insert_ne in Hl. }
    split; [done|].
    intros l o Hl Ho. apply HD; [done|]. unfold h1.
    by rewrite lookup_insert_ne.
  - set (c := fresh (dom h)).
    set (h1 := <[b:=CustomerBuilderObj defaults]> (<[c:=CustomerObj s]> h)).
    assert (Hcn : h !! c = None) by apply fresh_unused.
    assert (Hcb : c <> b) by congruence.
    assert (Hc1 : h1 !! c = Some (CustomerObj s)).
    { unfold h1. rewrite lookup_insert_ne by done. apply lookup_insert_eq. }
    assert (Hsub : forall l, h1 !! l = None -> h !! l = None).
    { intros l Hl. unfold h1 in Hl.
      destruct (decide (b = l)) as [->|Hne];
        [by rewrite lookup_insert_eq in Hl|].
      rewrite lookup_insert_ne in Hl by done.
      destruct (decide (c = l)) as [->|Hne']; [done|].
      by rewrite lookup_insert_ne in Hl. }
    destruct (IH h1 b defaults) as (vs & h' & s' & Hrun & Hb' & HA & HB & HD);
      [apply lookup_insert_eq|].
    exists (VRef c :: vs), h', s'. split.
    { unfold bind at 1.
      rewrite (call_build_eq _ _ _ Hb), (build_eq _ _ _ Hb). fold c h1.
      unfold bind. by rewrite Hrun. }
    split; [done|]. split.
    { constructor.
      - exists c. split; [done|]. split; [done|]. by apply HD.
      - eapply Forall2_impl; [exact HA|].
        intros v o (l & -> & Hl & Hl'). exists l. split; [done|].
        split; [by apply Hsub|done]. }
    split.
    { constructor; [|done]. intros Hin.
      destruct (Forall2_elem_l _ _ _ _ HA Hin) as (o & l & [= <-] & Hl & _).
      by rewrite Hc1 in Hl. }
    intros l o Hl Ho. apply HD; [done|]. unfold h1.
    rewrite lookup_insert_ne by done.
    rewrite lookup_insert_ne; [done|congruence].
Qed.

(** X7.  Any sequence of setter calls and [build()] calls on a builder
    completes without an exception.  The customers returned are pairwise
    different objects that did not exist before.  At the end of the run
    each still holds the fields the builder had when it was built: the
    values the setters assigned since the [build()] before it, and the
    empty string in the other fields (for the first customer, the values
    the builder held at the start).  Objects other than the builder are
    left as they were. *)
Theorem runOps_customers ops h b s :
  h !! b = Some (CustomerBuilderObj s) ->
  exists vs h',
    runOps ops b h = Some (Return vs, h')
    /\ NoDup vs
    /\ Forall2 (fun v k => newObject h h' v (CustomerObj k))
         vs (expectedCustomers s ops)
    /\ (forall l o, l <> b -> h !! l = Some o -> h' !! l = Some o).
Proof.
  intros Hb.
  destruct (runOps_customers_inv ops h b s Hb)
    as (vs & h' & s' & Hrun & _ & HA & HB & HD).
  by exists vs, h'.
Qed.

Lemma setterUpdate_comm (f g : field) (v w : string) s :
  f <> g ->
  setterUpdate (g, w) (setterUpdate (f, v) s)
  = setterUpdate (f, v) (setterUpdate (g, w) s).
Proof. by destruct f, g. Qed.

(** X8.  Setters of different fields can be called in either order: the
    builder ends up in the same state. *)
Theorem setters_commute (f g : field) (v w : string) h b s :
  f <> g ->
  h !! b = Some (CustomerBuilderObj s) ->
  (let* t := callSetter (f, v) (VRef b) in callSetter (g, w) t) h
  = (let* t := callSetter (g, w) (VRef b) in callSetter (f, v) t) h.
Proof.
  intros Hfg Hb.
  bind_step (callSetter_eq (f, v) _ _ _ Hb).
  bind_step (callSetter_eq (g, w) _ _ _ Hb).
  rewrite (callSetter_eq (g, w) _ b (setterUpdate (f, v) s))
    by apply lookup_insert_eq.
  rewrite (callSetter_eq (f, v) _ b (setterUpdate (g, w) s))
    by apply lookup_insert_eq.
  by rewrite !insert_insert_eq, setterUpdate_comm.
Qed.

(** X9.  [reset()] discards what the setters assigned: after any chain of
    setter calls and a [reset()], [build()] returns a new customer whose
    four fields are the empty string. *)
Theorem reset_discards cs h b s :
  h !! b = Some (CustomerBuilderObj s) ->
  exists c h',
    (let* _ := chain cs (VRef b) in
     let* _ := resetCustomer b in
     build b) h
    = Some (Return (VRef c), h')
    /\ h !! c = None
    /\ h' !! c = Some (CustomerObj (mkCustomer "" "" "" "")).
Proof.
  intros Hb.
  set (h0 := <[b:=CustomerBuilderObj (applySetters cs s)]> h).
  assert (Hb0 : h0 !! b = Some (CustomerBuilderObj (applySetters cs s)))
    by apply lookup_insert_eq.
  set (h1 := <[b:=CustomerBuilderObj defaults]> h0).
  assert (Hb1 : h1 !! b = Some (CustomerBuilderObj defaults))
    by apply lookup_insert_eq.
  set (c := fresh (dom h1)).
  assert (Hc1 : h1 !! c = None) by apply fresh_unused.
  assert (Hcb : c <> b) by congruence.
  eexists c, _. split; [|split].
  - bind_step (chain_eq cs _ _ _ Hb). fold h0.
    bind_step (resetCustomer_eq _ _ _ Hb0). fold h1.
    apply (build_eq _ _ _ Hb1).
  - unfold h1, h0 in Hc1. by rewrite !lookup_insert_ne in Hc1.
  - fold c. rewrite lookup_insert_ne by done. apply lookup_insert_eq.
Qed.

(** X10.  [buildMinimalCustomer] does not assign the phone number: a
    phone number set on the bound builder before the recipe ends up in the
    customer the recipe returns. *)
Theorem minimal_keeps_pending_phone (phone f l e : string) h d b s :
  h !! d = Some (CustomerDirectorObj (VRef b)) ->
  h !! b = Some (CustomerBuilderObj s) ->
  exists c h',
    (let* _ := call_setPhoneNumber phone (VRef b) in
     buildMinimalCustomer d f l e) h
    = Some (Return (VRef c), h')
    /\ h' !! c = Some (CustomerObj (mkCustomer f l phone e)).
Proof.
  intros Hd Hb. assert (Hdb : d <> b) by congruence.
  set (h0 := <[b:=CustomerBuilderObj (with_phoneNumber phone s)]> h).
  assert (Hb0 : h0 !! b = Some (CustomerBuilderObj (with_phoneNumber phone s)))
    by apply lookup_insert_eq.
  assert (Hd0 : h0 !! d = Some (CustomerDirectorObj (VRef b)))
    by by unfold h0; rewrite lookup_insert_ne.
  set (h1 := <[b:=CustomerBuilderObj (mkCustomer f l phone e)]> h0).
  assert (Hb1 : h1 !! b = Some (CustomerBuilderObj (mkCustomer f l phone e)))
    by apply lookup_insert_eq.
  assert (Hcb : fresh (dom h1) <> b) by by eapply fresh_neq.
  eexists (fresh (dom h1)), _. split.
  - change (call_setPhoneNumber phone) with (callSetter (PhoneNumber, phone)).
    bind_step (callSetter_eq (PhoneNumber, phone) _ _ _ Hb).
    change (setterUpdate (PhoneNumber, phone) s)
      with (with_phoneNumber phone s). fold h0.
    rewrite (buildMinimalCustomer_eq _ _ _ _ f l e Hd0 Hb0).
    change (phoneNumber (with_phoneNumber phone s)) with phone. fold h1.
    apply (build_eq _ _ _ Hb1).
  - rewrite lookup_insert_ne by done. apply lookup_insert_eq.
Qed.

(** X11.  [setBuilder] replaces the builder of a director: the recipes
    called afterwards use the new builder, and every object other than the
    director and the new builder, the builder bound before among them, is
    left as it was. *)
Theorem setBuilder_rebinds (f l p e : string) h d b v0 s :
  h !! d = Some (CustomerDirectorObj v0) ->
  h !! b = Some (CustomerBuilderObj s) ->
  exists c h',
    (let* _ := setBuilder d (VRef b) in buildFullCustomer d f l p e) h
    = Some (Return (VRef c), h')
    /\ h !! c = None
    /\ h' !! c = Some (CustomerObj (mkCustomer f l p e))
    /\ h' !! d = Some (CustomerDirectorObj (VRef b))
    /\ (forall l0 o, l0 <> d -> l0 <> b ->
          h !! l0 = Some o -> h' !! l0 = Some o).
Proof.
  intros Hd Hb. assert (Hdb : d <> b) by congruence.
  set (h0 := <[d:=CustomerDirectorObj (VRef b)]> h).
  assert (Hd0 : h0 !! d = Some (CustomerDirectorObj (VRef b)))
    by apply lookup_insert_eq.
  assert (Hb0 : h0 !! b = Some (CustomerBuilderObj s))
    by by unfold h0; rewrite lookup_insert_ne.
  set (h1 := <[b:=CustomerBuilderObj (mkCustomer f l p e)]> h0).
  assert (Hb1 : h1 !! b = Some (CustomerBuilderObj (mkCustomer f l p e)))
    by apply lookup_insert_eq.
  set (c := fresh (dom h1)).
  assert (Hc1 : h1 !! c = None) by apply fresh_unused.
  assert (Hcb : c <> b) by congruence.
  assert (Hcd : c <> d).
  { intros ->. unfold h1 in Hc1. rewrite lookup_insert_ne in Hc1 by done.
    by rewrite Hd0 in Hc1. }
  eexists c, _. split; [|split; [|split; [|split]]].
  - unfold setBuilder. unfold bind at 1. bind_step (read_eq _ _ _ Hd).
    unfold write. lazy beta iota. fold h0.
    rewrite (buildFullCustomer_eq _ _ _ _ f l p e Hd0 Hb0). fold h1.
    apply (build_eq _ _ _ Hb1).
  - unfold h1, h0 in Hc1. by rewrite !lookup_insert_ne in Hc1.
  - fold c. rewrite lookup_insert_ne by done. apply lookup_insert_eq.
  - fold c. unfold h1. by rewrite !lookup_insert_ne.
  - intros l0 o Hl0d Hl0b Hl0. fold c.
    assert (Hl0c : c <> l0).
    { intros ->. unfold h1, h0 in Hc1.
      rewrite !lookup_insert_ne in Hc1 by done. congruence. }
    unfold h1, h0. by rewrite !lookup_insert_ne.
Qed.

End CustomerRunsFacts.

(** ** More on the prototype *)

Section PrototypeMoreFacts.
Import Prototype.
Context {number : Type}.
Implicit Types (h : gmap loc (object number)) (o c u : loc).
Implicit Types (d : UserDetails number).

(** X12.  The constructor keeps the caller's [UserDetails] object and
    [getUserDetails()] hands that same object out: an assignment the
    caller makes to it after the construction is seen through the
    instance. *)
Theorem constructor_shares_userDetails h u d :
  h !! u = Some (UserDetailsObj d) ->
  exists o h1,
    new_ConcretePrototype u h = Some (Return o, h1)
    /\ getUserDetails o h1 = Some (Return (VRef u), h1)
    /\ forall upd, exists h2,
         assignDetails upd u h1 = Some (Return tt, h2)
         /\ getUserDetails o h2 = Some (Return (VRef u), h2)
         /\ h2 !! u = Some (UserDetailsObj (upd d)).
Proof.
  intros Hu. set (o := fresh (dom h)).
  set (h1 := <[o:=PrototypeObj None (Some u)]> h).
  assert (Hou : o <> u) by by eapply fresh_neq.
  assert (Ho1 : h1 !! o = Some (PrototypeObj None (Some u)))
    by apply lookup_insert_eq.
  assert (Hu1 : h1 !! u = Some (UserDetailsObj d))
    by by unfold h1; rewrite lookup_insert_ne.
  exists o, h1. split; [done|].
  split; [by eapply get_userDetails_own|].
  intros upd. eexists. split; [apply (assignDetails_eq _ _ _ _ Hu1)|]. split.
  - eapply get_userDetails_own. rewrite lookup_insert_ne by done. exact Ho1.
  - apply lookup_insert_eq.
Qed.

(** X13.  [clone()] changes no object that existed before: it adds two
    objects to the store, the clone and its copy of the details, and the
    clone has the original as its prototype. *)
Theorem clone_only_allocates h o pr u d :
  h !! o = Some (PrototypeObj pr (Some u)) ->
  h !! u = Some (UserDetailsObj d) ->
  exists c u' h',
    clone o h = Some (Return (VRef c), h')
    /\ h !! c = None /\ h !! u' = None /\ c <> u'
    /\ h' !! c = Some (PrototypeObj (Some o) (Some u'))
    /\ dom h' = {[c; u']} ∪ dom h
    /\ (forall l ob, h !! l = Some ob -> h' !! l = Some ob).
Proof.
  intros Ho Hu.
  pose proof (clone_eq _ _ _ _ _ Ho Hu) as Hclone. simpl in Hclone.
  set (c := fresh (dom h)) in *.
  set (h1 := <[c:=PrototypeObj (Some o) None]> h) in *.
  set (u' := fresh (dom h1)) in *.
  assert (Hc : h !! c = None) by apply fresh_unused.
  assert (Hu'1 : h1 !! u' = None) by apply fresh_unused.
  assert (Hcu' : c <> u').
  { intros Heq. rewrite <- Heq in Hu'1. unfold h1 in Hu'1.
    by rewrite lookup_insert_eq in Hu'1. }
  assert (Hu' : h !! u' = None).
  { unfold h1 in Hu'1. by rewrite lookup_insert_ne in Hu'1. }
  eexists c, u', _. split; [exact Hclone|].
  do 3 (split; [done|]). split; [apply lookup_insert_eq|]. split.
  - unfold h1. rewrite !dom_insert_L. apply set_eq. intros l.
    rewrite !elem_of_union, !elem_of_singleton. tauto.
  - intros l ob Hl. unfold h1.
    rewrite !lookup_insert_ne; [done|congruence..].
Qed.

End PrototypeMoreFacts.

(** ** The shapes *)

Section ShapesFacts.
Import Shapes.
Context {number : Type}.
Implicit Types (h : gmap loc (object number)) (o c p : loc).
Implicit Types (d : ShapeProperties number).

Lemma spread_eq h p d :
  h !! p = Some (PropertiesObj d) ->
  spread p h
  = Some (Return (fresh (dom h)), <[fresh (dom h):=PropertiesObj d]> h).
Proof. intros Hp. unfold spread. by bind_step (read_eq _ _ _ Hp). Qed.

Lemma assignProperties_eq upd h p d :
  h !! p = Some (PropertiesObj d) ->
  assignProperties upd p h
  = Some (Return tt, <[p:=PropertiesObj (upd d)]> h).
Proof. intros Hp. unfold assignProperties. by bind_step (read_eq _ _ _ Hp). Qed.

(** What [clone] of either shape does, for the object [shape] that holds
    [p] and the object [mk p'] that is made for the copy [p']. *)
Lemma shape_clone h o p d (shape : object number)
    (mk : loc -> object number) (run : loc -> M (object number) value) :
  h !! o = Some shape ->
  h !! p = Some (PropertiesObj d) ->
  (forall h0, h0 !! o = Some shape ->
     run o h0
     = (let* copy := spread p in
        let* c := alloc (mk copy) in
        ret (VRef c)) h0) ->
  exists c p' h',
    run o h = Some (Return (VRef c), h')
    /\ h !! c = None /\ h !! p' = None /\ c <> p'
    /\ h' !! c = Some (mk p')
    /\ h' !! p' = Some (PropertiesObj d)
    /\ (forall l ob, h !! l = Some ob -> h' !! l = Some ob).
Proof.
  intros Ho Hp Hrun.
  set (p' := fresh (dom h)).
  set (h1 := <[p':=PropertiesObj d]> h).
  set (c := fresh (dom h1)).
  assert (Hp'n : h !! p' = None) by apply fresh_unused.
  assert (Hc1 : h1 !! c = None) by apply fresh_unused.
  assert (Hcp' : c <> p').
  { intros Heq. rewrite Heq in Hc1. unfold h1 in Hc1.
    by rewrite lookup_insert_eq in Hc1. }
  assert (Hc : h !! c = None).
  { unfold h1 in Hc1. by rewrite lookup_insert_ne in Hc1. }
  exists c, p', (<[c:=mk p']> h1). split.
  { rewrite (Hrun _ Ho). by bind_step (spread_eq _ _ _ Hp). }
  do 3 (split; [done|]). split; [apply lookup_insert_eq|]. split.
  { rewrite lookup_insert_ne by done. apply lookup_insert_eq. }
  intros l ob Hl. unfold h1. rewrite !lookup_insert_ne; [done|congruence..].
Qed.

Lemma get_properties_Circle h c p (r : number) :
  h !! c = Some (CircleObj p r) ->
  get_properties c h = Some (Return (VRef p), h).
Proof. intros Hc. unfold get_properties. by bind_step (read_eq _ _ _ Hc). Qed.

Lemma get_properties_Rectangle h c p (w ht : number) :
  h !! c = Some (RectangleObj p w ht) ->
  get_properties c h = Some (Return (VRef p), h).
Proof. intros Hc. unfold get_properties. by bind_step (read_eq _ _ _ Hc). Qed.

(** X14.  [Circle.clone()] changes no existing object and returns a new
    circle with the radius of the original and a new properties object
    with the same color and coordinates.  An assignment to the properties
    of the clone leaves those of the original as they were, and the other
    way round. *)
Theorem Circle_clone_copies h o p (r : number) d :
  h !! o = Some (CircleObj p r) ->
  h !! p = Some (PropertiesObj d) ->
  exists c p' h',
    Circle_clone o h = Some (Return (VRef c), h')
    /\ h !! c = None /\ h !! p' = None /\ c <> p'
    /\ h' !! c = Some (CircleObj p' r)
    /\ h' !! p' = Some (PropertiesObj d)
    /\ (forall l ob, h !! l = Some ob -> h' !! l = Some ob)
    /\ (forall upd, exists h'',
          assignProperties upd p' h' = Some (Return tt, h'')
          /\ get_properties o h'' = Some (Return (VRef p), h'')
          /\ h'' !! p = Some (PropertiesObj d))
    /\ (forall upd, exists h'',
          assignProperties upd p h' = Some (Return tt, h'')
          /\ get_properties c h'' = Some (Return (VRef p'), h'')
          /\ h'' !! p' = Some (PropertiesObj d)).
Proof.
  intros Ho Hp.
  destruct (shape_clone h o p d (CircleObj p r) (fun q => CircleObj q r)
              Circle_clone Ho Hp)
    as (c & p' & h' & Hrun & Hc & Hp'n & Hcp' & Hc' & Hp' & Hfr).
  { intros h0 Ho0. unfold Circle_clone, new_Circle.
    by bind_step (read_eq _ _ _ Ho0). }
  assert (Hpp' : p' <> p) by congruence.
  assert (Hop' : p' <> o) by congruence.
  assert (Hcp : p <> c) by congruence.
  exists c, p', h'. do 7 (split; [done|]). split.
  - intros upd. eexists. split; [apply (assignProperties_eq _ _ _ _ Hp')|].
    split.
    + eapply get_properties_Circle. rewrite lookup_insert_ne by done.
      by apply Hfr.
    + rewrite lookup_insert_ne by done. by apply Hfr.
  - intros upd. eexists.
    split; [apply (assignProperties_eq _ _ _ _ (Hfr _ _ Hp))|]. split.
    + eapply get_properties_Circle. by rewrite lookup_insert_ne.
    + by rewrite lookup_insert_ne.
Qed.

(** X15.  [Rectangle.clone()] changes no existing object and returns a
    new rectangle with the width and height of the original and a new
    properties object with the same color and coordinates.  An assignment
    to the properties of the clone leaves those of the original as they
    were, and the other way round. *)
Theorem Rectangle_clone_copies h o p (w ht : number) d :
  h !! o = Some (RectangleObj p w ht) ->
  h !! p = Some (PropertiesObj d) ->
  exists c p' h',
    Rectangle_clone o h = Some (Return (VRef c), h')
    /\ h !! c = None /\ h !! p' = None /\ c <> p'
    /\ h' !! c = Some (RectangleObj p' w ht)
    /\ h' !! p' = Some (PropertiesObj d)
    /\ (forall l ob, h !! l = Some ob -> h' !! l = Some ob)
    /\ (forall upd, exists h'',
          assignProperties upd p' h' = Some (Return tt, h'')
          /\ get_properties o h'' = Some (Return (VRef p), h'')
          /\ h'' !! p = Some (PropertiesObj d))
    /\ (forall upd, exists h'',
          assignProperties upd p h' = Some (Return tt, h'')
          /\ get_properties c h'' = Some (Return (VRef p'), h'')
          /\ h'' !! p' = Some (PropertiesObj d)).
Proof.
  intros Ho Hp.
  destruct (shape_clone h o p d (RectangleObj p w ht)
              (fun q => RectangleObj q w ht) Rectangle_clone Ho Hp)
    as (c & p' & h' & Hrun & Hc & Hp'n & Hcp' & Hc' & Hp' & Hfr).
  { intros h0 Ho0. unfold Rectangle_clone, new_Rectangle.
    by bind_step (read_eq _ _ _ Ho0). }
  assert (Hpp' : p' <> p) by congruence.
  assert (Hop' : p' <> o) by congruence.
  assert (Hcp : p <> c) by congruence.
  exists c, p', h'. do 7 (split; [done|]). split.
  - intros upd. eexists. split; [apply (assignProperties_eq _ _ _ _ Hp')|].
    split.
    + eapply get_properties_Rectangle. rewrite lookup_insert_ne by done.
      by apply Hfr.
    + rewrite lookup_insert_ne by done. by apply Hfr.
  - intros upd. eexists.
    split; [apply (assignProperties_eq _ _ _ _ (Hfr _ _ Hp))|]. split.
    + eapply get_properties_Rectangle. by rewrite lookup_insert_ne.
    + by rewrite lookup_insert_ne.
Qed.

(** X16.  The constructors keep the caller's properties object: two
    shapes made from one properties object share it, and an assignment to
    it is seen through both. *)
Theorem shapes_share_properties (r w ht : number) h p d :
  h !! p = Some (PropertiesObj d) ->
  exists c q h1,
    (let* c := new_Circle p r in
     let* q := new_Rectangle p w ht in
     ret (c, q)) h
    = Some (Return (c, q), h1)
    /\ c <> q
    /\ get_properties c h1 = Some (Return (VRef p), h1)
    /\ get_properties q h1 = Some (Return (VRef p), h1)
    /\ forall upd, exists h2,
         assignProperties upd p h1 = Some (Return tt, h2)
         /\ h2 !! p = Some (PropertiesObj (upd d))
         /\ get_properties c h2 = Some (Return (VRef p), h2)
         /\ get_properties q h2 = Some (Return (VRef p), h2).
Proof.
  intros Hp.
  set (c := fresh (dom h)).
  set (h0 := <[c:=CircleObj p r]> h).
  set (q := fresh (dom h0)).
  set (h1 := <[q:=RectangleObj p w ht]> h0).
  assert (Hcp : c <> p) by by eapply fresh_neq.
  assert (Hc0 : h0 !! c = Some (CircleObj p r)) by apply lookup_insert_eq.
  assert (Hp0 : h0 !! p = Some (PropertiesObj d))
    by by unfold h0; rewrite lookup_insert_ne.
  assert (Hqc : q <> c) by by eapply fresh_neq.
  assert (Hqp : q <> p) by by eapply fresh_neq.
  assert (Hc1 : h1 !! c = Some (CircleObj p r))
    by by unfold h1; rewrite lookup_insert_ne.
  assert (Hq1 : h1 !! q = Some (RectangleObj p w ht))
    by apply lookup_insert_eq.
  assert (Hp1 : h1 !! p = Some (PropertiesObj d))
    by by unfold h1; rewrite lookup_insert_ne.
  exists c, q, h1. split; [done|]. split; [done|].
  split; [by eapply get_properties_Circle|].
  split; [by eapply get_properties_Rectangle|].
  intros upd. eexists. split; [apply (assignProperties_eq _ _ _ _ Hp1)|].
  split; [apply lookup_insert_eq|]. split.
  - eapply get_properties_Circle. by rewrite lookup_insert_ne.
  - eapply get_properties_Rectangle. by rewrite lookup_insert_ne.
Qed.

End ShapesFacts.

(** ** The singletons *)

Section SingletonFacts.
Import Singleton.
Context {number : Type}.
Implicit Types (h : gmap loc (object number)) (cls : loc).
Implicit Types (v : option number).

Lemma get_instance_eq h cls i0 v :
  h !! cls = Some (SingletonClass i0 v) ->
  get_instance cls h = Some (Return i0, h).
Proof. intros Hc. unfold get_instance. by bind_step (read_eq _ _ _ Hc). Qed.

Lemma getInstance_bound h cls i v :
  h !! cls = Some (SingletonClass (VRef i) v) ->
  getInstance cls h = Some (Return (VRef i), h).
Proof.
  intros Hc. unfold getInstance.
  bind_step (get_instance_eq _ _ _ _ Hc). unfold falsy, ret at 1.
  unfold bind. by rewrite (get_instance_eq _ _ _ _ Hc).
Qed.

Lemma getInstance_first h cls v :
  h !! cls = Some (SingletonClass VUndefined v) ->
  getInstance cls h
  = Some (Return (VRef (fresh (dom h))),
          <[cls:=SingletonClass (VRef (fresh (dom h))) v]>
            (<[fresh (dom h):=SingletonObj]> h)).
Proof.
  intros Hc. unfold getInstance.
  bind_step (get_instance_eq _ _ _ _ Hc). unfold falsy.
  assert (Hne : fresh (dom h) <> cls) by by eapply fresh_neq.
  assert (Hc1 : <[fresh (dom h):=SingletonObj]> h !! cls
                = Some (SingletonClass VUndefined v))
    by by rewrite lookup_insert_ne.
  unfold bind at 1. unfold bind at 1. unfold alloc. lazy beta iota zeta.
  unfold set_instance. bind_step (read_eq _ _ _ Hc1).
  unfold write. lazy beta iota.
  apply get_instance_eq with (v := v). apply lookup_insert_eq.
Qed.

(** Whatever the state of the class, [getInstance] returns an instance
    and leaves it in the static field, with the value as it was. *)
Lemma getInstance_result h cls i0 v :
  h !! cls = Some (SingletonClass i0 v) ->
  exists i h1,
    getInstance cls h = Some (Return (VRef i), h1)
    /\ h1 !! cls = Some (SingletonClass (VRef i) v).
Proof.
  intros Hc. destruct i0 as [|j].
  - eexists _, _. split; [apply (getInstance_first _ _ _ Hc)|].
    apply lookup_insert_eq.
  - exists j, h. split; [apply (getInstance_bound _ _ _ _ Hc)|done].
Qed.

(** X17.  [Singleton.getInstance()] creates the instance on the first
    call only.  Whatever the state of the class, the call returns an
    instance, and every later call returns that same instance and changes
    nothing; when an instance existed already, the first call changes
    nothing either, and otherwise the instance is a new object and all
    existing objects but the class stay as they were. *)
Theorem getInstance_once h cls i0 v :
  h !! cls = Some (SingletonClass i0 v) ->
  exists i h1,
    getInstance cls h = Some (Return (VRef i), h1)
    /\ getInstance cls h1 = Some (Return (VRef i), h1)
    /\ h1 !! cls = Some (SingletonClass (VRef i) v)
    /\ (forall j, i0 = VRef j -> i = j /\ h1 = h)
    /\ (i0 = VUndefined ->
        h !! i = None /\ h1 !! i = Some SingletonObj
        /\ forall l ob, l <> cls -> h !! l = Some ob -> h1 !! l = Some ob).
Proof.
  intros Hc. destruct i0 as [|j].
  - set (i := fresh (dom h)).
    assert (Hi : h !! i = None) by apply fresh_unused.
    assert (Hne : i <> cls) by congruence.
    eexists i, _. split; [apply (getInstance_first _ _ _ Hc)|].
    split; [apply getInstance_bound with (v := v), lookup_insert_eq|].
    split; [apply lookup_insert_eq|]. split; [done|]. intros _.
    split; [done|]. split.
    + rewrite lookup_insert_ne by done. apply lookup_insert_eq.
    + intros l ob Hl Hob. rewrite lookup_insert_ne by done.
      rewrite lookup_insert_ne; [done|]. by eapply fresh_neq.
  - exists j, h. split; [apply (getInstance_bound _ _ _ _ Hc)|].
    split; [apply (getInstance_bound _ _ _ _ Hc)|]. split; [done|].
    split; [by intros ? [= <-]|done].
Qed.

(** X18.  The value of a singleton is kept on the class: it is
    [undefined] as long as nothing was assigned, and a value assigned
    through the instance that one [getInstance()] call returned is read
    through the instance that a later call returns, which is the same
    object. *)
Theorem singleton_value_shared (val : number) h cls i0 v :
  h !! cls = Some (SingletonClass i0 v) ->
  exists i h1 h2,
    getInstance cls h = Some (Return (VRef i), h1)
    /\ get_value cls i h1 = Some (Return v, h1)
    /\ set_value cls i val h1 = Some (Return tt, h2)
    /\ getInstance cls h2 = Some (Return (VRef i), h2)
    /\ get_value cls i h2 = Some (Return (Some val), h2).
Proof.
  intros Hc.
  destruct (getInstance_result h cls i0 v Hc) as (i & h1 & Hg & Hc1).
  set (h2 := <[cls:=SingletonClass (VRef i) (Some val)]> h1).
  assert (Hc2 : h2 !! cls = Some (SingletonClass (VRef i) (Some val)))
    by apply lookup_insert_eq.
  exists i, h1, h2. split; [done|]. split.
  { unfold get_value. by bind_step (read_eq _ _ _ Hc1). }
  split.
  { unfold set_value. by bind_step (read_eq _ _ _ Hc1). }
  split; [apply (getInstance_bound _ _ _ _ Hc2)|].
  unfold get_value. by bind_step (read_eq _ _ _ Hc2).
Qed.

Lemma get_logger_eq h cls i0 :
  h !! cls = Some (LoggerClass i0 : object number) ->
  get_logger cls h = Some (Return i0, h).
Proof. intros Hc. unfold get_logger. by bind_step (read_eq _ _ _ Hc). Qed.

Lemma Logger_getInstance_bound h cls i :
  h !! cls = Some (LoggerClass (VRef i) : object number) ->
  Logger_getInstance cls h = Some (Return (VRef i), h).
Proof.
  intros Hc. unfold Logger_getInstance.
  bind_step (get_logger_eq _ _ _ Hc). unfold falsy, ret at 1.
  unfold bind. by rewrite (get_logger_eq _ _ _ Hc).
Qed.

Lemma Logger_getInstance_first h cls :
  h !! cls = Some (LoggerClass VUndefined : object number) ->
  Logger_getInstance cls h
  = Some (Return (VRef (fresh (dom h))),
          <[cls:=LoggerClass (VRef (fresh (dom h)))]>
            (<[fresh (dom h):=LoggerObj]> h)).
Proof.
  intros Hc. unfold Logger_getInstance.
  bind_step (get_logger_eq _ _ _ Hc). unfold falsy.
  assert (Hne : fresh (dom h) <> cls) by by eapply fresh_neq.
  assert (Hc1 : <[fresh (dom h):=LoggerObj]> h !! cls
                = Some (LoggerClass VUndefined : object number))
    by by rewrite lookup_insert_ne.
  unfold bind at 1. unfold bind at 1. unfold alloc. lazy beta iota zeta.
  unfold set_logger. bind_step (read_eq _ _ _ Hc1).
  unfold write. lazy beta iota.
  apply get_logger_eq. apply lookup_insert_eq.
Qed.

(** [new Application()] on a class that has its logger already. *)
Lemma new_Application_bound h cls i :
  h !! cls = Some (LoggerClass (VRef i) : object number) ->
  new_Application cls h
  = Some (Return (fresh (dom h)),
          <[fresh (dom h):=ApplicationObj (VRef i)]> h).
Proof.
  intros Hc. unfold new_Application.
  assert (Hne : fresh (dom h) <> cls) by by eapply fresh_neq.
  assert (Hc1 : <[fresh (dom h):=ApplicationObj VUndefined]> h !! cls
                = Some (LoggerClass (VRef i) : object number))
    by by rewrite lookup_insert_ne.
  unfold bind at 1. unfold alloc. lazy beta iota zeta.
  bind_step (Logger_getInstance_bound _ _ _ Hc1).
  unfold bind, write, ret. by rewrite insert_insert_eq.
Qed.

(** X19.  Every [Application] gets the one [Logger]: two applications
    made one after the other are different objects that hold the same
    logger, which is also what a later [Logger.getInstance()] returns. *)
Theorem applications_share_logger h cls i0 :
  h !! cls = Some (LoggerClass i0 : object number) ->
  exists a1 a2 l h',
    (let* a1 := new_Application cls in
     let* a2 := new_Application cls in
     ret (a1, a2)) h
    = Some (Return (a1, a2), h')
    /\ a1 <> a2
    /\ h' !! a1 = Some (ApplicationObj (VRef l))
    /\ h' !! a2 = Some (ApplicationObj (VRef l))
    /\ Logger_getInstance cls h' = Some (Return (VRef l), h').
Proof.
  intros Hc.
  assert (Hfirst : exists a1 l h1,
    new_Application cls h = Some (Return a1, h1)
    /\ h1 !! a1 = Some (ApplicationObj (VRef l))
    /\ h1 !! cls = Some (LoggerClass (VRef l) : object number)).
  { destruct i0 as [|j].
    - set (a1 := fresh (dom h)).
      set (h0 := <[a1:=ApplicationObj VUndefined]> h).
      assert (Ha1 : a1 <> cls) by by eapply fresh_neq.
      assert (Hc0 : h0 !! cls = Some (LoggerClass VUndefined : object number))
        by by unfold h0; rewrite lookup_insert_ne.
      set (l := fresh (dom h0)).
      assert (Hla : l <> a1)
        by (eapply fresh_neq; apply lookup_insert_eq).
      assert (Hlc : l <> cls) by by eapply fresh_neq.
      eexists a1, l, _. split; [|split].
      + unfold new_Application.
        unfold bind at 1. unfold alloc. lazy beta iota zeta. fold a1 h0.
        bind_step (Logger_getInstance_first _ _ Hc0). fold l.
        unfold bind, write, ret. reflexivity.
      + apply lookup_insert_eq.
      + rewrite lookup_insert_ne by done. apply lookup_insert_eq.
    - eexists (fresh (dom h)), j, _.
      split; [apply (new_Application_bound _ _ _ Hc)|].
      split; [apply lookup_insert_eq|].
      rewrite lookup_insert_ne; [done|]. by eapply fresh_neq. }
  destruct Hfirst as (a1 & l & h1 & Hn1 & Ha1 & Hc1).
  set (a2 := fresh (dom h1)).
  assert (Ha21 : a2 <> a1) by by eapply fresh_neq.
  assert (Ha2c : a2 <> cls) by by eapply fresh_neq.
  exists a1, a2, l, (<[a2:=ApplicationObj (VRef l)]> h1). split.
  { bind_step Hn1. by bind_step (new_Application_bound _ _ _ Hc1). }
  split; [done|]. split; [by rewrite lookup_insert_ne|].
  split; [apply lookup_insert_eq|].
  apply Logger_getInstance_bound. by rewrite lookup_insert_ne.
Qed.

End SingletonFacts.

(** ** Instances of the further properties *)

Lemma director_recipes_accumulate_witness :
  exists h' h'' : gmap loc Builder.object,
    (let* b := Builder.new_ConcreteBuilder in
     let* _ := Director.runRecipes
                 [Director.MinimalViable; Director.FullFeatured]
                 (Director.setBuilder Director.new_Director (VRef b)) in
     Builder.getProduct b) ∅
    = Some (Return (VRef 2%positive), h'')
    /\ h' !! 2%positive
       = Some (Builder.ProductObj ["PartA"; "PartA"; "PartB"; "PartC"]).
Proof.
  pose (h := <[1%positive:=Builder.ConcreteBuilderObj (VRef 2%positive)]>
               (<[2%positive:=Builder.ProductObj []]>
                  (<[1%positive:=Builder.ConcreteBuilderObj VUndefined]>
                     (∅ : gmap loc Builder.object)))).
  assert (Hb : h !! 1%positive
               = Some (Builder.ConcreteBuilderObj (VRef 2%positive)))
    by (vm_compute; reflexivity).
  assert (Hp : h !! 2%positive = Some (Builder.ProductObj []))
    by (vm_compute; reflexivity).
  destruct (director_recipes_accumulate
              [Director.MinimalViable; Director.FullFeatured]
              Director.new_Director h 1%positive 2%positive [] Hb Hp)
    as (h' & h'' & Hrun & Hparts & _ & Hget & _).
  exists h', h''. split; [|exact Hparts].
  change ((let* _ := Director.runRecipes
                       [Director.MinimalViable; Director.FullFeatured]
                       (Director.setBuilder Director.new_Director
                          (VRef 1%positive)) in
           Builder.getProduct 1%positive) h
          = Some (Return (VRef 2%positive), h'')).
  unfold bind. rewrite Hrun. exact Hget.
Defined.

Lemma runCalls_products_witness :
  exists vs h',
    (let* b := Builder.new_ConcreteBuilder in
     Builder.runCalls
       [Builder.CallPart Builder.CallPartA; Builder.CallGetProduct;
        Builder.CallPart Builder.CallPartB; Builder.CallGetProduct] b) ∅
    = Some (Return vs, h')
    /\ NoDup vs
    /\ Forall2 (fun v parts => exists l,
                  v = VRef l /\ h' !! l = Some (Builder.ProductObj parts))
         vs [["PartA"]; ["PartB"]].
Proof.
  pose (h := <[1%positive:=Builder.ConcreteBuilderObj (VRef 2%positive)]>
               (<[2%positive:=Builder.ProductObj []]>
                  (<[1%positive:=Builder.ConcreteBuilderObj VUndefined]>
                     (∅ : gmap loc Builder.object)))).
  assert (Hb : h !! 1%positive
               = Some (Builder.ConcreteBuilderObj (VRef 2%positive)))
    by (vm_compute; reflexivity).
  assert (Hp : h !! 2%positive = Some (Builder.ProductObj []))
    by (vm_compute; reflexivity).
  destruct (runCalls_products
              [Builder.CallPart Builder.CallPartA; Builder.CallGetProduct;
               Builder.CallPart Builder.CallPartB; Builder.CallGetProduct]
              h 1%positive 2%positive [] Hb Hp)
    as (vs & h' & p' & Hrun & _ & _ & Hnd & Hall).
  exists vs, h'. split; [exact Hrun|]. split; [exact Hnd|exact Hall].
Defined.

Lemma runOps_customers_witness :
  let h : gmap loc Builder.object :=
    {[1%positive := Builder.CustomerBuilderObj Builder.defaults]} in
  exists vs h',
    Builder.runOps
      [Builder.OpSet (Builder.FirstName, "Ann"); Builder.OpBuild;
       Builder.OpSet (Builder.Email, "b@x.com"); Builder.OpBuild]
      1%positive h
    = Some (Return vs, h')
    /\ NoDup vs
    /\ Forall2 (fun v k => Runs.newObject h h' v (Builder.CustomerObj k))
         vs [Builder.mkCustomer "Ann" "" "" "";
             Builder.mkCustomer "" "" "" "b@x.com"].
Proof.
  intros h.
  destruct (runOps_customers
              [Builder.OpSet (Builder.FirstName, "Ann"); Builder.OpBuild;
               Builder.OpSet (Builder.Email, "b@x.com"); Builder.OpBuild]
              h 1%positive Builder.defaults eq_refl)
    as (vs & h' & Hrun & Hnd & Hall & _).
  exists vs, h'. split; [exact Hrun|]. split; [exact Hnd|exact Hall].
Defined.

Lemma setters_commute_witness :
  let h : gmap loc Builder.object :=
    {[1%positive := Builder.CustomerBuilderObj Builder.defaults]} in
  (let* t := Builder.callSetter (Builder.FirstName, "Ann") (VRef 1%positive) in
   Builder.callSetter (Builder.Email, "a@x.com") t) h
  = (let* t := Builder.callSetter (Builder.Email, "a@x.com")
                 (VRef 1%positive) in
     Builder.callSetter (Builder.FirstName, "Ann") t) h.
Proof.
  intros h.
  apply (setters_commute Builder.FirstName Builder.Email "Ann" "a@x.com"
           h 1%positive Builder.defaults);
    [discriminate|reflexivity].
Defined.

Lemma reset_discards_witness :
  let h : gmap loc Builder.object :=
    {[1%positive := Builder.CustomerBuilderObj Builder.defaults]} in
  exists c h',
    (let* _ := Builder.chain [(Builder.FirstName, "Ann")] (VRef 1%positive) in
     let* _ := Builder.resetCustomer 1%positive in
     Builder.build 1%positive) h
    = Some (Return (VRef c), h')
    /\ h' !! c = Some (Builder.CustomerObj (Builder.mkCustomer "" "" "" "")).
Proof.
  intros h.
  destruct (reset_discards [(Builder.FirstName, "Ann")] h 1%positive
              Builder.defaults eq_refl)
    as (c & h' & Hrun & _ & Hc).
  exists c, h'. split; [exact Hrun|exact Hc].
Defined.

Lemma minimal_keeps_pending_phone_witness :
  let h : gmap loc Builder.object :=
    {[1%positive := Builder.CustomerBuilderObj Builder.defaults;
      2%positive := Builder.CustomerDirectorObj (VRef 1%positive)]} in
  exists c h',
    (let* _ := Builder.call_setPhoneNumber "555" (VRef 1%positive) in
     Builder.buildMinimalCustomer 2%positive "John" "Doe" "john@x.com") h
    = Some (Return (VRef c), h')
    /\ h' !! c
       = Some (Builder.CustomerObj
                 (Builder.mkCustomer "John" "Doe" "555" "john@x.com")).
Proof.
  intros h.
  assert (Hd : h !! 2%positive
               = Some (Builder.CustomerDirectorObj (VRef 1%positive)))
    by (vm_compute; reflexivity).
  assert (Hb : h !! 1%positive
               = Some (Builder.CustomerBuilderObj Builder.defaults))
    by (vm_compute; reflexivity).
  apply (minimal_keeps_pending_phone "555" "John" "Doe" "john@x.com"
           h 2%positive 1%positive Builder.defaults Hd Hb).
Defined.

Lemma setBuilder_rebinds_witness :
  let h : gmap loc Builder.object :=
    {[1%positive := Builder.CustomerBuilderObj
                      (Builder.mkCustomer "old" "" "" "");
      2%positive := Builder.CustomerDirectorObj (VRef 1%positive);
      3%positive := Builder.CustomerBuilderObj Builder.defaults]} in
  exists c h',
    (let* _ := Builder.setBuilder 2%positive (VRef 3%positive) in
     Builder.buildFullCustomer 2%positive "a" "b" "c" "d") h
    = Some (Return (VRef c), h')
    /\ h' !! c = Some (Builder.CustomerObj (Builder.mkCustomer "a" "b" "c" "d"))
    /\ h' !! 1%positive
       = Some (Builder.CustomerBuilderObj (Builder.mkCustomer "old" "" "" "")).
Proof.
  intros h.
  assert (Hd : h !! 2%positive
               = Some (Builder.CustomerDirectorObj (VRef 1%positive)))
    by (vm_compute; reflexivity).
  assert (Hb : h !! 3%positive
               = Some (Builder.CustomerBuilderObj Builder.defaults))
    by (vm_compute; reflexivity).
  assert (Hold : h !! 1%positive
                 = Some (Builder.CustomerBuilderObj
                           (Builder.mkCustomer "old" "" "" "")))
    by (vm_compute; reflexivity).
  destruct (setBuilder_rebinds "a" "b" "c" "d" h 2%positive 3%positive
              (VRef 1%positive) Builder.defaults Hd Hb)
    as (c & h' & Hrun & _ & Hc & _ & Hfr).
  exists c, h'. split; [exact Hrun|]. split; [exact Hc|].
  apply Hfr; [discriminate|discriminate|exact Hold].
Defined.

Lemma constructor_shares_userDetails_witness :
  let alice := Prototype.mkUserDetails "Alice" 30%Z "alice@example.com" in
  let h : gmap loc (Prototype.object Z) :=
    {[1%positive := Prototype.UserDetailsObj alice]} in
  exists o h1 h2,
    Prototype.new_ConcretePrototype 1%positive h = Some (Return o, h1)
    /\ Prototype.assignDetails (Prototype.with_name "Bob") 1%positive h1
       = Some (Return tt, h2)
    /\ Prototype.getUserDetails o h2 = Some (Return (VRef 1%positive), h2)
    /\ h2 !! 1%positive
       = Some (Prototype.UserDetailsObj
                 (Prototype.mkUserDetails "Bob" 30%Z "alice@example.com")).
Proof.
  intros alice h.
  destruct (constructor_shares_userDetails h 1%positive alice eq_refl)
    as (o & h1 & Hnew & _ & Hupd).
  destruct (Hupd (Prototype.with_name "Bob")) as (h2 & Hset & Hget & Hu).
  exists o, h1, h2. split; [exact Hnew|]. split; [exact Hset|].
  split; [exact Hget|exact Hu].
Defined.

Lemma clone_only_allocates_witness :
  let alice := Prototype.mkUserDetails "Alice" 30%Z "alice@example.com" in
  let h : gmap loc (Prototype.object Z) :=
    {[1%positive := Prototype.UserDetailsObj alice;
      2%positive := Prototype.PrototypeObj None (Some 1%positive)]} in
  exists c u' h',
    Prototype.clone 2%positive h = Some (Return (VRef c), h')
    /\ h' !! c
       = Some (Prototype.PrototypeObj (Some 2%positive) (Some u'))
    /\ dom h' = {[c; u']} ∪ dom h.
Proof.
  intros alice h.
  destruct (clone_only_allocates h 2%positive None 1%positive alice
              eq_refl eq_refl)
    as (c & u' & h' & Hclone & _ & _ & _ & Hc & Hdom & _).
  exists c, u', h'. split; [exact Hclone|]. split; [exact Hc|exact Hdom].
Defined.

Lemma Circle_clone_copies_witness :
  let blue := Shapes.mkProperties "blue" 15%Z 25%Z in
  let h : gmap loc (Shapes.object Z) :=
    {[1%positive := Shapes.PropertiesObj blue;
      2%positive := Shapes.CircleObj 1%positive 30%Z]} in
  exists c p' h',
    Shapes.Circle_clone 2%positive h = Some (Return (VRef c), h')
    /\ h' !! c = Some (Shapes.CircleObj p' 30%Z)
    /\ h' !! p' = Some (Shapes.PropertiesObj blue).
Proof.
  intros blue h.
  destruct (Circle_clone_copies h 2%positive 1%positive 30%Z blue
              eq_refl eq_refl)
    as (c & p' & h' & Hclone & _ & _ & _ & Hc & Hp' & _).
  exists c, p', h'. split; [exact Hclone|]. split; [exact Hc|exact Hp'].
Defined.

Lemma Rectangle_clone_copies_witness :
  let red := Shapes.mkProperties "red" 10%Z 20%Z in
  let h : gmap loc (Shapes.object Z) :=
    {[1%positive := Shapes.PropertiesObj red;
      2%positive := Shapes.RectangleObj 1%positive 100%Z 50%Z]} in
  exists c p' h' h'',
    Shapes.Rectangle_clone 2%positive h = Some (Return (VRef c), h')
    /\ Shapes.assignProperties (Shapes.with_color "green") p' h'
       = Some (Return tt, h'')
    /\ h'' !! 1%positive = Some (Shapes.PropertiesObj red).
Proof.
  intros red h.
  destruct (Rectangle_clone_copies h 2%positive 1%positive 100%Z 50%Z red
              eq_refl eq_refl)
    as (c & p' & h' & Hclone & _ & _ & _ & _ & _ & _ & Hupd & _).
  destruct (Hupd (Shapes.with_color "green")) as (h'' & Hset & _ & Hkeep).
  exists c, p', h', h''. split; [exact Hclone|].
  split; [exact Hset|exact Hkeep].
Defined.

Lemma shapes_share_properties_witness :
  let red := Shapes.mkProperties "red" 10%Z 20%Z in
  let h : gmap loc (Shapes.object Z) :=
    {[1%positive := Shapes.PropertiesObj red]} in
  exists c q h1 h2,
    (let* c := Shapes.new_Circle 1%positive 30%Z in
     let* q := Shapes.new_Rectangle 1%positive 100%Z 50%Z in
     ret (c, q)) h
    = Some (Return (c, q), h1)
    /\ Shapes.assignProperties (Shapes.with_color "green") 1%positive h1
       = Some (Return tt, h2)
    /\ Shapes.get_properties c h2 = Some (Return (VRef 1%positive), h2)
    /\ Shapes.get_properties q h2 = Some (Return (VRef 1%positive), h2)
    /\ h2 !! 1%positive
       = Some (Shapes.PropertiesObj (Shapes.mkProperties "green" 10%Z 20%Z)).
Proof.
  intros red h.
  destruct (shapes_share_properties 30%Z 100%Z 50%Z h 1%positive red eq_refl)
    as (c & q & h1 & Hrun & _ & _ & _ & Hupd).
  destruct (Hupd (Shapes.with_color "green"))
    as (h2 & Hset & Hp & Hc & Hq).
  exists c, q, h1, h2. split; [exact Hrun|]. split; [exact Hset|].
  split; [exact Hc|]. split; [exact Hq|exact Hp].
Defined.

Lemma getInstance_once_witness :
  let h : gmap loc (Singleton.object Z) :=
    {[1%positive := Singleton.SingletonClass VUndefined None]} in
  exists i h1,
    Singleton.getInstance 1%positive h = Some (Return (VRef i), h1)
    /\ Singleton.getInstance 1%positive h1 = Some (Return (VRef i), h1)
    /\ h1 !! i = Some Singleton.SingletonObj.
Proof.
  intros h.
  destruct (getInstance_once h 1%positive VUndefined None eq_refl)
    as (i & h1 & Hg1 & Hg2 & _ & _ & Hnew).
  destruct (Hnew eq_refl) as (_ & Hi & _).
  exists i, h1. split; [exact Hg1|]. split; [exact Hg2|exact Hi].
Defined.

Lemma singleton_value_shared_witness :
  let h : gmap loc (Singleton.object Z) :=
    {[1%positive := Singleton.SingletonClass VUndefined None]} in
  exists i h1 h2,
    Singleton.getInstance 1%positive h = Some (Return (VRef i), h1)
    /\ Singleton.get_value 1%positive i h1 = Some (Return None, h1)
    /\ Singleton.set_value 1%positive i 42%Z h1 = Some (Return tt, h2)
    /\ Singleton.get_value 1%positive i h2 = Some (Return (Some 42%Z), h2).
Proof.
  intros h.
  destruct (singleton_value_shared 42%Z h 1%positive VUndefined None eq_refl)
    as (i & h1 & h2 & Hg & Hv0 & Hset & _ & Hv).
  exists i, h1, h2. split; [exact Hg|]. split; [exact Hv0|].
  split; [exact Hset|exact Hv].
Defined.

Lemma applications_share_logger_witness :
  let h : gmap loc (Singleton.object Z) :=
    {[1%positive := Singleton.LoggerClass VUndefined]} in
  exists a1 a2 l h',
    (let* a1 := Singleton.new_Application 1%positive in
     let* a2 := Singleton.new_Application 1%positive in
     ret (a1, a2)) h
    = Some (Return (a1, a2), h')
    /\ a1 <> a2
    /\ h' !! a1 = Some (Singleton.ApplicationObj (VRef l))
    /\ h' !! a2 = Some (Singleton.ApplicationObj (VRef l)).
Proof.
  intros h.
  destruct (applications_share_logger h 1%positive VUndefined eq_refl)
    as (a1 & a2 & l & h' & Hrun & Hne & Ha1 & Ha2 & _).
  exists a1, a2, l, h'. split; [exact Hrun|]. split; [exact Hne|].
  split; [exact Ha1|exact Ha2].
Defined.
